(** * The coderd group resource: membership diffing, lifecycle and import

    A shallow embedding of [internal/provider/util.go] ([memberDiff]) and of
    the group resource ([CheckGroupEntitlements], [Create], [Read],
    [Update], [Delete], [ImportState]), with the properties the design
    document states about them.

    Remote calls go through the SDK client.  The client is not part of the
    provider: it is modelled as a record of transition functions over an
    arbitrary world state, and every call an operation makes is logged, so
    that statements about which calls are issued, and in what order, are
    statements about the log. *)

From Stdlib Require Import ZArith NArith Lia.
From Stdlib.Strings Require Import Ascii String Byte.
From stdpp Require Import base decidable countable list strings gmap sets pretty.

Local Open Scope string_scope.
Local Open Scope Z_scope.

(* ===================================================================== *)
(** ** [github.com/google/uuid] *)
(* ===================================================================== *)

Module uuid.

(** [type UUID [16]byte]. *)
Record UUID : Type := mk {
  b0 : byte; b1 : byte; b2 : byte; b3 : byte;
  b4 : byte; b5 : byte; b6 : byte; b7 : byte;
  b8 : byte; b9 : byte; b10 : byte; b11 : byte;
  b12 : byte; b13 : byte; b14 : byte; b15 : byte }.

(** [uuid.Nil], the zero value of the array. *)
Definition Nil : UUID :=
  mk x00 x00 x00 x00 x00 x00 x00 x00 x00 x00 x00 x00 x00 x00 x00 x00.

Definition to_list (u : UUID) : list byte :=
  [b0 u; b1 u; b2 u; b3 u; b4 u; b5 u; b6 u; b7 u;
   b8 u; b9 u; b10 u; b11 u; b12 u; b13 u; b14 u; b15 u].

Definition of_list (l : list byte) : UUID :=
  match l with
  | [c0; c1; c2; c3; c4; c5; c6; c7; c8; c9; c10; c11; c12; c13; c14; c15] =>
      mk c0 c1 c2 c3 c4 c5 c6 c7 c8 c9 c10 c11 c12 c13 c14 c15
  | _ => Nil
  end.

(** One lower-case hexadecimal digit. *)
Definition hexdigit (n : N) : ascii :=
  match n with
  | 0 => "0" | 1 => "1" | 2 => "2" | 3 => "3" | 4 => "4" | 5 => "5"
  | 6 => "6" | 7 => "7" | 8 => "8" | 9 => "9" | 10 => "a" | 11 => "b"
  | 12 => "c" | 13 => "d" | 14 => "e" | _ => "f"
  end%N%char.

Definition hexhi (b : byte) : ascii := hexdigit (Byte.to_N b / 16).
Definition hexlo (b : byte) : ascii := hexdigit (Byte.to_N b mod 16).

(** The value of a hexadecimal digit, for decoding. *)
Definition hexval (c : ascii) : N :=
  let n := N_of_ascii c in
  (if (48 <=? n) && (n <=? 57) then n - 48
   else if (97 <=? n) && (n <=? 102) then n - 87
   else 0)%N.

Definition unhex (hi lo : ascii) : byte :=
  match Byte.of_N (hexval hi * 16 + hexval lo) with
  | Some b => b
  | None => x00
  end.

Definition hex2 (b : byte) (rest : string) : string :=
  String (hexhi b) (String (hexlo b) rest).

(** [func (uuid UUID) String() string]: the form
    xxxxxxxx-xxxx-xxxx-xxxx-xxxxxxxxxxxx, in lower case. *)
Definition String (u : UUID) : string :=
  hex2 (b0 u) (hex2 (b1 u) (hex2 (b2 u) (hex2 (b3 u) (String "-"
  (hex2 (b4 u) (hex2 (b5 u) (String "-"
  (hex2 (b6 u) (hex2 (b7 u) (String "-"
  (hex2 (b8 u) (hex2 (b9 u) (String "-"
  (hex2 (b10 u) (hex2 (b11 u) (hex2 (b12 u) (hex2 (b13 u)
  (hex2 (b14 u) (hex2 (b15 u) EmptyString))))))))))))))))))).

Global Instance byte_eq_dec : EqDecision byte := Byte.byte_eq_dec.

Global Instance UUID_eq_dec : EqDecision UUID.
Proof. solve_decision. Defined.

End uuid.

Global Instance byte_countable : Countable byte :=
  inj_countable Byte.to_N Byte.of_N Byte.of_to_N.

Global Instance uuid_countable : Countable uuid.UUID :=
  inj_countable' uuid.to_list uuid.of_list
    (λ u, match u with uuid.mk _ _ _ _ _ _ _ _ _ _ _ _ _ _ _ _ => eq_refl end).

(* ===================================================================== *)
(** ** Attribute values of the plugin framework *)
(* ===================================================================== *)

(** Every attribute value of the framework is null, unknown or known.  The
    [Value...] accessors return the zero value of the Go type when the
    attribute is null or unknown. *)
Inductive attr (A : Type) : Type :=
  | Null
  | Unknown
  | Known (a : A).
Arguments Null {A}.
Arguments Unknown {A}.
Arguments Known {A} a.

Global Instance attr_eq_dec {A} `{EqDecision A} : EqDecision (attr A).
Proof. solve_decision. Defined.

Definition IsNull {A} (v : attr A) : bool :=
  match v with Null => true | _ => false end.

Definition IsUnknown {A} (v : attr A) : bool :=
  match v with Unknown => true | _ => false end.

Definition value_or {A} (zero : A) (v : attr A) : A :=
  match v with Known a => a | _ => zero end.

Module types.
(** [types.String], [types.Int32]. *)
Definition String := attr string.
Definition Int32 := attr Z.

Definition StringValue (s : string) : String := Known s.
Definition Int32Value (n : Z) : Int32 := Known n.

Definition ValueString (v : String) : string := value_or "" v.
Definition ValueInt32 (v : Int32) : Z := value_or 0 v.

(** [ValueStringPointer]: nil for a null value, otherwise a pointer to
    [ValueString]. *)
Definition ValueStringPointer (v : String) : option string :=
  match v with
  | Null => None
  | Unknown => Some ""
  | Known s => Some s
  end.
End types.

(** The provider's own [UUID] attribute type: a string attribute that also
    carries the parsed identifier.  Its declaration is in a file of the
    provider that is not at hand; the model keeps what the resource uses of
    it: a known value is built from an identifier by [UUIDValue], its string
    is that identifier's canonical form, and null and unknown values carry
    [uuid.Nil] and the empty string. *)
Definition UUID := attr uuid.UUID.

Definition UUIDValue (value : uuid.UUID) : UUID := Known value.
Definition ValueUUID (v : UUID) : uuid.UUID := value_or uuid.Nil v.
Definition ValueString (v : UUID) : string :=
  match v with Known u => uuid.String u | _ => "" end.

(* ===================================================================== *)
(** ** [util.go]: [memberDiff] *)
(* ===================================================================== *)

(** [map[uuid.UUID]struct{}] is a finite set of identifiers. *)
Abbreviation uuidset := (gset uuid.UUID).

(** First loop: [curSet[userID] = struct{}{}]. *)
Definition memberDiff_curSet (curMembers : list uuid.UUID) : uuidset :=
  foldl (λ curSet userID, {[ userID ]} ∪ curSet) ∅ curMembers.

(** Second loop: fills [planSet] and appends to [add] every planned member
    that is not in [curSet]. *)
Definition memberDiff_plan (curSet : uuidset) (plannedMembers : list UUID)
    : uuidset * list string :=
  foldl (λ '((planSet, add) : uuidset * list string) plannedUserID,
           let planSet := {[ ValueUUID plannedUserID ]} ∪ planSet in
           if decide (ValueUUID plannedUserID ∈ curSet)
           then (planSet, add)
           else (planSet, (add ++ [ValueString plannedUserID])%list))
        (∅, []) plannedMembers.

(** Third loop: appends to [remove] every current member that is not in
    [planSet]. *)
Definition memberDiff_remove (planSet : uuidset) (curMembers : list uuid.UUID)
    : list string :=
  foldl (λ (remove : list string) curUserID,
           if decide (curUserID ∈ planSet)
           then remove
           else (remove ++ [uuid.String curUserID])%list)
        [] curMembers.

Definition memberDiff (curMembers : list uuid.UUID) (plannedMembers : list UUID)
    : list string * list string :=
  let curSet := memberDiff_curSet curMembers in
  let '(planSet, add) := memberDiff_plan curSet plannedMembers in
  let remove := memberDiff_remove planSet curMembers in
  (add, remove).

(** The set of canonical strings of a list of identifiers: the view of a
    member list "as a set" in which the outputs of [memberDiff] are compared. *)
Definition strings_of (ids : list uuid.UUID) : gset string :=
  list_to_set (uuid.String <$> ids).


(* ===================================================================== *)
(** ** [codersdk]: the types the resource exchanges with the client *)
(* ===================================================================== *)

(** A Go [error], by its message. *)
Definition error := string.

(** The two results of a client call, [(v, nil)] and [(_, err)]. *)
Inductive result (A : Type) : Type :=
  | Ok (v : A)
  | Err (err : error).
Arguments Ok {A} v.
Arguments Err {A} err.

Definition is_err {A} (r : result A) : bool :=
  match r with Err _ => true | Ok _ => false end.

(** Go's [int32(n)] on an [int]: wrap-around into the 32-bit range. *)
Definition int32 (n : Z) : Z := (n + 2 ^ 31) mod 2 ^ 32 - 2 ^ 31.

Module codersdk.

Definition FeatureName := string.
Definition FeatureTemplateRBAC : FeatureName := "template_rbac".

Module Feature.
Record t := mk { Entitlement : string; Enabled : bool }.
(** The zero value, which a Go map returns for a missing key. *)
Definition zero : t := mk "" false.
End Feature.

Module ReducedUser.
Record t := mk { ID : uuid.UUID; Username : string }.
End ReducedUser.

Definition GroupSource := string.
Definition GroupSourceUser : GroupSource := "user".
Definition GroupSourceOIDC : GroupSource := "oidc".

Module Group.
Record t := mk {
  ID : uuid.UUID;
  Name : string;
  DisplayName : string;
  OrganizationID : uuid.UUID;
  Members : list ReducedUser.t;
  AvatarURL : string;
  QuotaAllowance : Z;
  Source : GroupSource }.
End Group.

Module Organization.
Record t := mk { ID : uuid.UUID; Name : string }.
End Organization.

Module CreateGroupRequest.
Record t := mk {
  Name : string;
  DisplayName : string;
  AvatarURL : string;
  QuotaAllowance : Z }.
End CreateGroupRequest.

(** Pointer fields are options; a nil slice is the empty list. *)
Module PatchGroupRequest.
Record t := mk {
  AddUsers : list string;
  RemoveUsers : list string;
  Name : string;
  AvatarURL : option string;
  QuotaAllowance : option Z;
  DisplayName : option string }.
End PatchGroupRequest.

End codersdk.

(** The methods of [*codersdk.Client] that the resource calls.  The remote
    service is arbitrary: each method is a transition of a world state [W]
    that also yields the call's result. *)
Record Client (W : Type) : Type := mkClient {
  CreateGroup : uuid.UUID → codersdk.CreateGroupRequest.t → W
                → result codersdk.Group.t * W;
  PatchGroup : uuid.UUID → codersdk.PatchGroupRequest.t → W
               → result codersdk.Group.t * W;
  Group : uuid.UUID → W → result codersdk.Group.t * W;
  DeleteGroup : uuid.UUID → W → result unit * W;
  OrganizationByName : string → W → result codersdk.Organization.t * W;
  GroupByOrgAndName : uuid.UUID → string → W → result codersdk.Group.t * W }.
Arguments CreateGroup {W}.
Arguments PatchGroup {W}.
Arguments Group {W}.
Arguments DeleteGroup {W}.
Arguments OrganizationByName {W}.
Arguments GroupByOrgAndName {W}.

(** One logged call: the method with its arguments, and whether it
    returned an error. *)
Inductive Call : Type :=
  | CallCreateGroup (orgID : uuid.UUID) (req : codersdk.CreateGroupRequest.t)
  | CallPatchGroup (group : uuid.UUID) (req : codersdk.PatchGroupRequest.t)
  | CallGroup (group : uuid.UUID)
  | CallDeleteGroup (group : uuid.UUID)
  | CallOrganizationByName (name : string)
  | CallGroupByOrgAndName (orgID : uuid.UUID) (name : string).

Record Event : Type := mkEvent { ev_call : Call; ev_failed : bool }.

(** The calls that change the remote service. *)
Definition is_mutating (c : Call) : bool :=
  match c with
  | CallCreateGroup _ _ | CallPatchGroup _ _ | CallDeleteGroup _ => true
  | CallGroup _ | CallOrganizationByName _ | CallGroupByOrgAndName _ _ => false
  end.

Definition is_patch (c : Call) : bool :=
  match c with CallPatchGroup _ _ => true | _ => false end.

(** *** The monad of an operation: world state and call log *)

Record St (W : Type) : Type := mkSt { world : W; log : list Event }.
Arguments mkSt {W}.
Arguments world {W}.
Arguments log {W}.

Definition M (W A : Type) : Type := St W → A * St W.

Definition ret {W A} (a : A) : M W A := λ st, (a, st).

Definition bind {W A B} (m : M W A) (k : A → M W B) : M W B :=
  λ st, let '(a, st') := m st in k a st'.

Notation "'call' x <- m ; k" := (bind m (λ x, k))
  (at level 10, x name, m at level 100, k at level 200,
   format "'[v' 'call'  x  <-  m ; '/' k ']'").

(** A remote call: run the transition, append the call to the log. *)
Definition remote {W A} (c : Call) (f : W → result A * W) : M W (result A) :=
  λ st, let '(r, w) := f (world st) in
        (r, mkSt w (log st ++ [mkEvent c (is_err r)])%list).

(** Run an operation from a world state with an empty log. *)
Definition run {W A} (m : M W A) (w : W) : A * St W := m (mkSt w []).

Definition calls {W} (st : St W) : list Call := ev_call <$> log st.

(* ===================================================================== *)
(** ** Diagnostics, state and requests of the plugin framework *)
(* ===================================================================== *)

Inductive Severity : Type := SeverityError | SeverityWarning.

Record Diagnostic : Type := mkDiagnostic {
  diag_Severity : Severity;
  diag_Summary : string;
  diag_Detail : string }.

Global Instance Severity_eq_dec : EqDecision Severity.
Proof. solve_decision. Defined.

Global Instance Diagnostic_eq_dec : EqDecision Diagnostic.
Proof. solve_decision. Defined.

Definition Diagnostics := list Diagnostic.

Definition NewErrorDiagnostic (summary detail : string) : Diagnostic :=
  mkDiagnostic SeverityError summary detail.

(** [diags.Append(in...)]: a diagnostic already present is not added again. *)
Definition Diagnostics_Append (diags new : Diagnostics) : Diagnostics :=
  foldl (λ (ds : Diagnostics) d, if decide (d ∈ ds) then ds else (ds ++ [d])%list)
        diags new.

Definition Diagnostics_AddError (diags : Diagnostics) (summary detail : string)
    : Diagnostics :=
  Diagnostics_Append diags [NewErrorDiagnostic summary detail].

Definition HasError (diags : Diagnostics) : bool :=
  existsb (λ d, bool_decide (diag_Severity d = SeverityError)) diags.

Module types_Set.
(** [types.Set] with [UUIDType] elements. *)
Definition t := attr (list UUID).

Definition conversion_error : Diagnostic :=
  NewErrorDiagnostic "Value Conversion Error"
    "An unexpected error was encountered trying to build a value.".

Definition all_known (elems : list UUID) : bool :=
  forallb (λ e, match e with Known _ => true | _ => false end) elems.

(** [ElementsAs(ctx, &target, false)] into a [[]string]: a null set leaves
    the nil slice, an unknown set is an error, and so is an element that
    is null or unknown, which a Go string cannot hold. *)
Definition ElementsAs_strings (s : t) : Diagnostics * list string :=
  match s with
  | Null => ([], [])
  | Unknown => ([conversion_error], [])
  | Known elems =>
      if all_known elems then ([], ValueString <$> elems)
      else ([conversion_error], [])
  end.

(** [ElementsAs(ctx, &target, false)] into a [[]UUID]: the elements are
    attribute values themselves and are taken as they are. *)
Definition ElementsAs_UUIDs (s : t) : Diagnostics * list UUID :=
  match s with
  | Null => ([], [])
  | Unknown => ([conversion_error], [])
  | Known elems => ([], elems)
  end.

(** The strings of the elements of a known set; nothing for a null or
    unknown one. *)
Definition strings (s : t) : list string :=
  match s with
  | Known elems => ValueString <$> elems
  | _ => []
  end.

(** The sets that [ElementsAs_strings] converts without error. *)
Definition convertible (s : t) : bool :=
  match s with
  | Null => true
  | Unknown => false
  | Known elems => all_known elems
  end.

Definition duplicate_error : Diagnostic :=
  NewErrorDiagnostic "Duplicate Set Element"
    "This attribute contains duplicate values.".

(** The validation of a set value, which the framework runs both when it
    reads a set out of a plan or state and when it writes one into the
    state: a set with a repeated element is refused. *)
Definition Validate (s : t) : Diagnostics :=
  match s with
  | Known elems => if decide (NoDup elems) then [] else [duplicate_error]
  | _ => []
  end.

(** [types.SetValueMust(UUIDType, members)]. *)
Definition SetValueMust (members : list UUID) : t := Known members.
End types_Set.

(* ===================================================================== *)
(** ** The group resource *)
(* ===================================================================== *)

(** [GroupResourceModel]. *)
Record GroupResourceModel : Type := mkModel {
  ID : UUID;
  Name : types.String;
  DisplayName : types.String;
  AvatarURL : types.String;
  QuotaAllowance : types.Int32;
  OrganizationID : UUID;
  Members : types_Set.t }.

Definition with_ID (d : GroupResourceModel) (v : UUID) :=
  mkModel v (Name d) (DisplayName d) (AvatarURL d) (QuotaAllowance d)
          (OrganizationID d) (Members d).
Definition with_Name (d : GroupResourceModel) (v : types.String) :=
  mkModel (ID d) v (DisplayName d) (AvatarURL d) (QuotaAllowance d)
          (OrganizationID d) (Members d).
Definition with_DisplayName (d : GroupResourceModel) (v : types.String) :=
  mkModel (ID d) (Name d) v (AvatarURL d) (QuotaAllowance d)
          (OrganizationID d) (Members d).
Definition with_AvatarURL (d : GroupResourceModel) (v : types.String) :=
  mkModel (ID d) (Name d) (DisplayName d) v (QuotaAllowance d)
          (OrganizationID d) (Members d).
Definition with_QuotaAllowance (d : GroupResourceModel) (v : types.Int32) :=
  mkModel (ID d) (Name d) (DisplayName d) (AvatarURL d) v
          (OrganizationID d) (Members d).
Definition with_OrganizationID (d : GroupResourceModel) (v : UUID) :=
  mkModel (ID d) (Name d) (DisplayName d) (AvatarURL d) (QuotaAllowance d)
          v (Members d).
Definition with_Members (d : GroupResourceModel) (v : types_Set.t) :=
  mkModel (ID d) (Name d) (DisplayName d) (AvatarURL d) (QuotaAllowance d)
          (OrganizationID d) v.

(** A plan or prior state as a request carries it: the diagnostics of
    decoding its attributes and the model they decode to. *)
Record Source : Type := mkSource {
  decode_diags : Diagnostics;
  decode_data : GroupResourceModel }.

(** [Get(ctx, &data)]: the decoded model, and the diagnostics of decoding
    together with those of the validation of the member set. *)
Definition Get_data (src : Source) : GroupResourceModel := decode_data src.

Definition Get_diags (src : Source) : Diagnostics :=
  Diagnostics_Append (decode_diags src)
                     (types_Set.Validate (Members (decode_data src))).

(** The state of a response: absent until something is written to it, or
    the stored model. *)
Definition State := option GroupResourceModel.

Definition null_model : GroupResourceModel :=
  mkModel Null Null Null Null Null Null Null.

(** [resp.State.Set(ctx, &data)]: the model is stored, unless its member
    set is refused by the validation; then the state stays as it was and
    the diagnostics of the validation are returned. *)
Definition State_Set (st : State) (data : GroupResourceModel)
    : Diagnostics * State :=
  match types_Set.Validate (Members data) with
  | [] => ([], Some data)
  | diags => (diags, st)
  end.

(** [resp.State.SetAttribute(ctx, path.Root("id"), id.String())]: only the
    [id] attribute is written; it is of the [UUID] type, whose value with
    that string is [UUIDValue id]. *)
Definition State_SetAttribute_id (st : State) (id : uuid.UUID) : State :=
  Some (with_ID (default null_model st) (UUIDValue id)).

(** [resource.CreateResponse], [ReadResponse], [UpdateResponse],
    [DeleteResponse] and [ImportStateResponse] all hold the diagnostics and
    the state; the operations receive the response and fill it in. *)
Record Response : Type := mkResponse {
  resp_Diagnostics : Diagnostics;
  resp_State : State }.

Definition Append (resp : Response) (diags : Diagnostics) : Response :=
  mkResponse (Diagnostics_Append (resp_Diagnostics resp) diags) (resp_State resp).

Definition AddError (resp : Response) (summary detail : string) : Response :=
  mkResponse (Diagnostics_AddError (resp_Diagnostics resp) summary detail)
             (resp_State resp).

Definition SetState (resp : Response) (st : State) : Response :=
  mkResponse (resp_Diagnostics resp) st.

(** [resp.Diagnostics.Append(resp.State.Set(ctx, &data)...)]. *)
Definition Set_and_Append (resp : Response) (data : GroupResourceModel)
    : Response :=
  let '(diags, st) := State_Set (resp_State resp) data in
  Append (SetState resp st) diags.

Record CreateRequest : Type := mkCreateRequest { create_Plan : Source }.
Record ReadRequest : Type := mkReadRequest { read_State : Source }.
Record UpdateRequest : Type := mkUpdateRequest {
  update_Plan : Source;
  update_State : Source }.
Record DeleteRequest : Type := mkDeleteRequest { delete_State : Source }.
Record ImportStateRequest : Type := mkImportStateRequest { import_ID : string }.

(** [CoderdProviderData] and [GroupResource]. *)
Record CoderdProviderData (W : Type) : Type := mkData {
  data_Client : Client W;
  DefaultOrganizationID : uuid.UUID;
  Features : gmap codersdk.FeatureName codersdk.Feature.t }.
Arguments data_Client {W}.
Arguments DefaultOrganizationID {W}.
Arguments Features {W}.

Record GroupResource (W : Type) : Type := mkGroupResource {
  r_data : CoderdProviderData W }.
Arguments r_data {W}.

(** [features[codersdk.FeatureTemplateRBAC]], with Go's zero value for a
    missing key. *)
Definition feature (features : gmap codersdk.FeatureName codersdk.Feature.t)
    (name : codersdk.FeatureName) : codersdk.Feature.t :=
  default codersdk.Feature.zero (features !! name).

Definition entitlement_error : Diagnostic :=
  NewErrorDiagnostic "Feature not enabled"
                     "Your license is not entitled to use groups.".

Definition CheckGroupEntitlements
    (features : gmap codersdk.FeatureName codersdk.Feature.t) : Diagnostics :=
  if negb (codersdk.Feature.Enabled (feature features codersdk.FeatureTemplateRBAC))
  then Diagnostics_AddError [] "Feature not enabled"
                            "Your license is not entitled to use groups."
  else [].

(** [strings.Split(s, "/")]: the pieces of [s] between the separators; a
    string without separator, the empty one included, is one piece. *)
Fixpoint strings_Split (s : string) (sep : ascii) : list string :=
  match s with
  | EmptyString => [""]
  | String c rest =>
      if Ascii.eqb c sep then "" :: strings_Split rest sep
      else match strings_Split rest sep with
           | piece :: pieces => String c piece :: pieces
           | [] => [String c ""]
           end
  end.

Section resource.
Context {W : Type}.

(** [uuid.Parse] of the identifier library: which strings it accepts is
    the library's matter, so it is a parameter of [ImportState]. *)
Variable uuid_Parse : string → result uuid.UUID.

Implicit Types (r : GroupResource W) (resp : Response).

(** Logging ([tflog]) has no effect on the response, the state or the
    calls, and is left out. *)

(** [if data.OrganizationID.IsUnknown() { data.OrganizationID = ... }]. *)
Definition default_org r (data : GroupResourceModel) : GroupResourceModel :=
  if IsUnknown (OrganizationID data)
  then with_OrganizationID data (UUIDValue (DefaultOrganizationID (r_data r)))
  else data.

(** The request of [Create]'s create call:
    [codersdk.CreateGroupRequest{Name: ..., DisplayName: ..., AvatarURL: ...,
    QuotaAllowance: int(data.QuotaAllowance.ValueInt32())}]. *)
Definition create_request (data : GroupResourceModel)
    : codersdk.CreateGroupRequest.t :=
  codersdk.CreateGroupRequest.mk
    (types.ValueString (Name data))
    (types.ValueString (DisplayName data))
    (types.ValueString (AvatarURL data))
    (types.ValueInt32 (QuotaAllowance data)).

(** The request of [Create]'s patch call:
    [codersdk.PatchGroupRequest{AddUsers: members}], every other field at
    its zero value. *)
Definition members_request (members : list string)
    : codersdk.PatchGroupRequest.t :=
  codersdk.PatchGroupRequest.mk members [] "" None None None.

(** The request of [Update]'s patch call:
    [codersdk.PatchGroupRequest{AddUsers: add, RemoveUsers: remove,
    Name: ..., DisplayName: ..., AvatarURL: ..., QuotaAllowance: &quotaAllowance}]. *)
Definition update_request (data : GroupResourceModel)
    (add remove : list string) : codersdk.PatchGroupRequest.t :=
  let quotaAllowance := types.ValueInt32 (QuotaAllowance data) in
  codersdk.PatchGroupRequest.mk
    add remove
    (types.ValueString (Name data))
    (types.ValueStringPointer (AvatarURL data))
    (Some quotaAllowance)
    (types.ValueStringPointer (DisplayName data)).

Definition Create r (req : CreateRequest) resp : M W Response :=
  let data := Get_data (create_Plan req) in
  let resp := Append resp (Get_diags (create_Plan req)) in
  if HasError (resp_Diagnostics resp) then ret resp else
  let resp := Append resp (CheckGroupEntitlements (Features (r_data r))) in
  if HasError (resp_Diagnostics resp) then ret resp else
  let client := data_Client (r_data r) in
  let data := default_org r data in
  let orgID := ValueUUID (OrganizationID data) in
  let createReq := create_request data in
  call created <- remote (CallCreateGroup orgID createReq)
                         (CreateGroup client orgID createReq);
  match created with
  | Err err =>
      ret (AddError resp "Client Error"
                    ("Unable to create group, got error: " ++ err))
  | Ok group =>
      let data := with_ID data (UUIDValue (codersdk.Group.ID group)) in
      let data := with_DisplayName data
                    (types.StringValue (codersdk.Group.DisplayName group)) in
      let '(diags, members) := types_Set.ElementsAs_strings (Members data) in
      let resp := Append resp diags in
      if HasError (resp_Diagnostics resp) then ret resp else
      let patchReq := members_request members in
      call patched <- remote (CallPatchGroup (codersdk.Group.ID group) patchReq)
                             (PatchGroup client (codersdk.Group.ID group) patchReq);
      match patched with
      | Err err =>
          ret (AddError resp "Client Error"
                        ("Unable to add members to group, got error: " ++ err))
      | Ok _ =>
          ret (Set_and_Append resp data)
      end
  end.

Definition Read r (req : ReadRequest) resp : M W Response :=
  let data := Get_data (read_State req) in
  let resp := Append resp (Get_diags (read_State req)) in
  if HasError (resp_Diagnostics resp) then ret resp else
  let client := data_Client (r_data r) in
  let groupID := ValueUUID (ID data) in
  call fetched <- remote (CallGroup groupID) (Group client groupID);
  match fetched with
  | Err err =>
      ret (AddError resp "Client Error"
                    ("Unable to get group, got error: " ++ err))
  | Ok group =>
      let data := with_Name data (types.StringValue (codersdk.Group.Name group)) in
      let data := with_DisplayName data
                    (types.StringValue (codersdk.Group.DisplayName group)) in
      let data := with_AvatarURL data
                    (types.StringValue (codersdk.Group.AvatarURL group)) in
      let data := with_QuotaAllowance data
                    (types.Int32Value (int32 (codersdk.Group.QuotaAllowance group))) in
      let data := with_OrganizationID data
                    (UUIDValue (codersdk.Group.OrganizationID group)) in
      let data :=
        if negb (IsNull (Members data))
        then with_Members data
               (types_Set.SetValueMust
                  ((λ member, UUIDValue (codersdk.ReducedUser.ID member))
                     <$> codersdk.Group.Members group))
        else data in
      ret (Set_and_Append resp data)
  end.

(** The end of [Update], from the log line on: the one patch call with
    the membership changes and the scalar attributes, then the state. *)
Definition Update_patch r (data : GroupResourceModel)
    (group : codersdk.Group.t) (add remove : list string) resp
    : M W Response :=
  let client := data_Client (r_data r) in
  let patchReq := update_request data add remove in
  call patched <- remote (CallPatchGroup (codersdk.Group.ID group) patchReq)
                         (PatchGroup client (codersdk.Group.ID group) patchReq);
  match patched with
  | Err err =>
      ret (AddError resp "Client Error"
                    ("Unable to update group, got error: " ++ err))
  | Ok _ =>
      ret (Set_and_Append resp data)
  end.

Definition Update r (req : UpdateRequest) resp : M W Response :=
  let data := Get_data (update_Plan req) in
  let resp := Append resp (Get_diags (update_Plan req)) in
  if HasError (resp_Diagnostics resp) then ret resp else
  let client := data_Client (r_data r) in
  let data := default_org r data in
  let groupID := ValueUUID (ID data) in
  call fetched <- remote (CallGroup groupID) (Group client groupID);
  match fetched with
  | Err err =>
      ret (AddError resp "Client Error"
                    ("Unable to get group, got error: " ++ err))
  | Ok group =>
      if negb (IsNull (Members data)) then
        let '(diags, plannedMembers) :=
          types_Set.ElementsAs_UUIDs (Members data) in
        let resp := Append resp diags in
        if HasError (resp_Diagnostics resp) then ret resp else
        let curMembers := codersdk.ReducedUser.ID <$> codersdk.Group.Members group in
        let '(add, remove) := memberDiff curMembers plannedMembers in
        Update_patch r data group add remove resp
      else
        Update_patch r data group [] [] resp
  end.

Definition Delete r (req : DeleteRequest) resp : M W Response :=
  let data := Get_data (delete_State req) in
  let resp := Append resp (Get_diags (delete_State req)) in
  if HasError (resp_Diagnostics resp) then ret resp else
  let client := data_Client (r_data r) in
  let groupID := ValueUUID (ID data) in
  call deleted <- remote (CallDeleteGroup groupID) (DeleteGroup client groupID);
  match deleted with
  | Err err =>
      ret (AddError resp "Client Error"
                    ("Unable to delete group, got error: " ++ err))
  | Ok _ => ret resp
  end.

(** The first half of [ImportState]: from the identifier to the group
    identifier, or to the response with the error added. *)
Definition ImportState_resolve r (req : ImportStateRequest) resp
    : M W (Response + uuid.UUID) :=
  let client := data_Client (r_data r) in
  let idParts := strings_Split (import_ID req) "/" in
  match idParts with
  | [ _ ] =>
      match uuid_Parse (import_ID req) with
      | Err err =>
          ret (inl (AddError resp "Client Error"
                 ("Unable to parse import group ID as UUID, got error: " ++ err)))
      | Ok groupID => ret (inr groupID)
      end
  | [ orgName; groupName ] =>
      call org <- remote (CallOrganizationByName orgName)
                         (OrganizationByName client orgName);
      match org with
      | Err err =>
          ret (inl (AddError resp "Client Error"
                 ("Failed to get organization with name " ++ orgName
                  ++ ": " ++ err)))
      | Ok org =>
          call group <- remote (CallGroupByOrgAndName
                                  (codersdk.Organization.ID org) groupName)
                               (GroupByOrgAndName client
                                  (codersdk.Organization.ID org) groupName);
          match group with
          | Err err =>
              ret (inl (AddError resp "Client Error"
                     ("Failed to get group with name " ++ groupName
                      ++ ": " ++ err)))
          | Ok group => ret (inr (codersdk.Group.ID group))
          end
      end
  | _ =>
      ret (inl (AddError resp "Client Error"
             "Invalid import ID format, expected a single UUID or `<organization-name>/<group-name>`"))
  end.

Definition ImportState r (req : ImportStateRequest) resp : M W Response :=
  let client := data_Client (r_data r) in
  call resolved <- ImportState_resolve r req resp;
  match resolved with
  | inl resp => ret resp
  | inr groupID =>
      call fetched <- remote (CallGroup groupID) (Group client groupID);
      match fetched with
      | Err err =>
          ret (AddError resp "Client Error"
                        ("Unable to get imported group, got error: " ++ err))
      | Ok group =>
          if String.eqb (codersdk.Group.Source group) "oidc"
          then ret (AddError resp "Client Error"
                             "Cannot import groups created via OIDC")
          else ret (SetState resp (State_SetAttribute_id (resp_State resp) groupID))
      end
  end.

End resource.

(* ===================================================================== *)
(** ** Concrete inputs on which the statements below are exercised *)
(* ===================================================================== *)

Module fixtures.

(** The identifier 00000000-0000-0000-0000-0000000000nn. *)
Definition id_of (b : byte) : uuid.UUID :=
  uuid.mk x00 x00 x00 x00 x00 x00 x00 x00 x00 x00 x00 x00 x00 x00 x00 b.

Definition u1 := id_of x01.
Definition u2 := id_of x02.
Definition u3 := id_of x03.
Definition gid := id_of x0a.
Definition orgid := id_of x0b.

Definition member (u : uuid.UUID) : codersdk.ReducedUser.t :=
  codersdk.ReducedUser.mk u "user".

(** The remote group: members [u1] and [u2]. *)
Definition devs (source : codersdk.GroupSource) : codersdk.Group.t :=
  codersdk.Group.mk gid "devs" "Developers" orgid [member u1; member u2]
                    "" 5 source.

Definition acme : codersdk.Organization.t :=
  codersdk.Organization.mk orgid "acme".

(** A remote service whose world state counts the calls it served.  It
    knows one organization, [acme], and one group, [devs];
    [patch_ok] tells whether patch calls succeed and [source] is the
    source tag of the group. *)
Definition service (patch_ok : bool) (source : codersdk.GroupSource)
    : Client nat :=
  mkClient nat
    (λ orgID req n,
       (Ok (codersdk.Group.mk gid (codersdk.CreateGroupRequest.Name req)
              (codersdk.CreateGroupRequest.DisplayName req) orgID []
              (codersdk.CreateGroupRequest.AvatarURL req)
              (codersdk.CreateGroupRequest.QuotaAllowance req)
              codersdk.GroupSourceUser), S n))
    (λ id req n,
       (if patch_ok then Ok (devs source) else Err "patch refused", S n))
    (λ id n,
       (if decide (id = gid) then Ok (devs source) else Err "not found", S n))
    (λ id n, (Ok tt, S n))
    (λ name n,
       (if String.eqb name "acme" then Ok acme else Err "not found", S n))
    (λ orgID name n,
       (if decide (orgID = orgid) then
          if String.eqb name "devs" then Ok (devs source) else Err "not found"
        else Err "not found", S n)).

(** A remote service that refuses every call. *)
Definition down : Client nat :=
  mkClient nat
    (λ _ _ n, (Err "unreachable", S n))
    (λ _ _ n, (Err "unreachable", S n))
    (λ _ n, (Err "unreachable", S n))
    (λ _ n, (Err "unreachable", S n))
    (λ _ n, (Err "unreachable", S n))
    (λ _ _ n, (Err "unreachable", S n)).

Definition licensed : gmap codersdk.FeatureName codersdk.Feature.t :=
  {[ codersdk.FeatureTemplateRBAC := codersdk.Feature.mk "entitled" true ]}.

Definition unlicensed : gmap codersdk.FeatureName codersdk.Feature.t := ∅.

Definition resource (c : Client nat)
    (features : gmap codersdk.FeatureName codersdk.Feature.t)
    : GroupResource nat :=
  mkGroupResource nat (mkData nat c orgid features).

(** A plan for the group [devs] with the given membership. *)
Definition plan (members : types_Set.t) : Source :=
  mkSource [] (mkModel (UUIDValue gid) (Known "devs") (Known "Developers")
                       (Known "") (Known 5) Unknown members).

Definition managed (ids : list uuid.UUID) : types_Set.t :=
  Known (UUIDValue <$> ids).

Definition fresh : Response := mkResponse [] None.

(** A parser for the canonical form of [gid] only. *)
Definition parse_gid (s : string) : result uuid.UUID :=
  if String.eqb s (uuid.String gid) then Ok gid else Err "invalid UUID".

End fixtures.

(** The model that a successful [Create] stores: the plan with the default
    organization filled in, and the identifier and display name that the
    service returned. *)
Definition created_model {W} (r : GroupResource W) (plan : Source)
    (group : codersdk.Group.t) : GroupResourceModel :=
  with_DisplayName
    (with_ID (default_org r (Get_data plan)) (UUIDValue (codersdk.Group.ID group)))
    (types.StringValue (codersdk.Group.DisplayName group)).


(** The model that [Read] builds from the prior state and the fetched
    group, before it writes it to the state. *)
Definition refreshed_model (prior : GroupResourceModel)
    (group : codersdk.Group.t) : GroupResourceModel :=
  mkModel (ID prior)
          (types.StringValue (codersdk.Group.Name group))
          (types.StringValue (codersdk.Group.DisplayName group))
          (types.StringValue (codersdk.Group.AvatarURL group))
          (types.Int32Value (int32 (codersdk.Group.QuotaAllowance group)))
          (UUIDValue (codersdk.Group.OrganizationID group))
          (if negb (IsNull (Members prior))
           then types_Set.SetValueMust
                  ((λ member, UUIDValue (codersdk.ReducedUser.ID member))
                     <$> codersdk.Group.Members group)
           else Members prior).

(** The membership changes that [Update] computes: none for a null
    membership, otherwise the difference between the members of the fetched
    group and the planned ones. *)
Definition Update_changes (members : types_Set.t) (group : codersdk.Group.t)
    : list string * list string :=
  match members with
  | Known planned =>
      memberDiff (codersdk.ReducedUser.ID <$> codersdk.Group.Members group) planned
  | _ => ([], [])
  end.

(** The organization in which [Create] creates the group. *)
Definition Create_organization {W} (r : GroupResource W)
    (plan : GroupResourceModel) : uuid.UUID :=
  match OrganizationID plan with
  | Unknown => DefaultOrganizationID (r_data r)
  | Known org => org
  | Null => uuid.Nil
  end.

(** The number of occurrences of a character in a string. *)
Fixpoint count_char (c : ascii) (s : string) : nat :=
  match s with
  | EmptyString => 0
  | String a rest => (if Ascii.eqb a c then 1 else 0) + count_char c rest
  end.

(** [strings.Join(pieces, sep)] for a one-character separator. *)
Fixpoint strings_Join (pieces : list string) (sep : ascii) : string :=
  match pieces with
  | [] => ""
  | [piece] => piece
  | piece :: rest => piece ++ String sep (strings_Join rest sep)
  end.

(** The state that a successful [ImportState] leaves in a response. *)
Definition imported_state (resp : Response) (groupID : uuid.UUID) : State :=
  State_SetAttribute_id (resp_State resp) groupID.

(* ===================================================================== *)
(** ** [util.go]: [PtrTo], [PrintOrNull], [computeDirectoryHash] *)
(* ===================================================================== *)

(** [PtrTo]: a pointer to a copy of the value; pointers are options. *)
Definition PtrTo {T} (v : T) : option T := Some v.

(** The dynamic values that [PrintOrNull] tells apart: the nil interface,
    a pointer (nil or not) of one of the five types of the type switch, or
    a value of any other type, of which only the type's name matters. *)
Inductive any : Type :=
  | any_nil
  | ptr_int32 (value : option Z)
  | ptr_int64 (value : option Z)
  | ptr_string (value : option string)
  | ptr_bool (value : option bool)
  | ptr_strings (value : option (list string))
  | other (type_name : string).

(** [strings.Join] with a separator string. *)
Fixpoint join (sep : string) (pieces : list string) : string :=
  match pieces with
  | [] => ""
  | [piece] => piece
  | piece :: rest => piece ++ sep ++ join sep rest
  end.

Section PrintOrNull.
(** [fmt.Sprintf("%q", s)], Go's quoting of a string, is the formatting
    library's and stays a parameter; [%d] is the decimal form and [%t] is
    [true] or [false]. *)
Variable quote : string → string.

Definition format_d (n : Z) : string := pretty n.
Definition format_t (b : bool) : string := if b then "true" else "false".

(** The loop over [*value]: [i] counts the elements seen so far. *)
Definition PrintOrNull_roles (value : list string) : string :=
  (foldl (λ '((i, result) : nat * string) role,
            let result := if decide (0 < i)%nat then result ++ ", " else result in
            (S i, result ++ quote role))
         (0%nat, "") value).2.

(** [PrintOrNull]; a panic is [Err] with the message of the panic. *)
Definition PrintOrNull (v : any) : result string :=
  match v with
  | any_nil => Ok "null"
  | ptr_int32 None | ptr_int64 None | ptr_string None | ptr_bool None
  | ptr_strings None => Ok "null"
  | ptr_int32 (Some n) => Ok (format_d n)
  | ptr_int64 (Some n) => Ok (format_d n)
  | ptr_string (Some s) => Ok (quote s)
  | ptr_bool (Some b) => Ok (format_t b)
  | ptr_strings (Some roles) => Ok ("[" ++ PrintOrNull_roles roles ++ "]")
  | other type_name => Err ("unknown type in template: " ++ type_name)
  end.
End PrintOrNull.

(** One call of the function that [computeDirectoryHash] passes to
    [filepath.Walk]: the path visited, whether it is a directory, and the
    error of the visit, if any. *)
Record Visit : Type := mkVisit {
  visit_path : string;
  visit_IsDir : bool;
  visit_err : option error }.

(** [hex.EncodeToString]. *)
Definition hex_EncodeToString (bytes : list byte) : string :=
  foldr (λ b rest, uuid.hex2 b rest) "" bytes.

Section computeDirectoryHash.
(** The walk of the directory is given by its visits, in walk order; the
    file system is given by what [os.ReadFile] returns for a path; and
    [sha256_Sum] is the SHA-256 digest of all the bytes written. *)
Variable ReadFile : string → result (list byte).
Variable sha256_Sum : list byte → list byte.

(** The walk: the function returns the error of a visit as it is, which
    ends the walk with that error; otherwise it appends the path of every
    visit that is not a directory. *)
Fixpoint computeDirectoryHash_walk (visits : list Visit) (files : list string)
    : result (list string) :=
  match visits with
  | [] => Ok files
  | v :: visits =>
      match visit_err v with
      | Some err => Err err
      | None =>
          computeDirectoryHash_walk visits
            (if negb (visit_IsDir v) then (files ++ [visit_path v])%list else files)
      end
  end.

(** The loop over [files]: read each file and write it to the hash. *)
Fixpoint computeDirectoryHash_read (files : list string) (written : list byte)
    : result (list byte) :=
  match files with
  | [] => Ok written
  | file :: files =>
      match ReadFile file with
      | Err err => Err err
      | Ok data => computeDirectoryHash_read files (written ++ data)%list
      end
  end.

Definition computeDirectoryHash (visits : list Visit) : result string :=
  match computeDirectoryHash_walk visits [] with
  | Err err => Err err
  | Ok files =>
      match computeDirectoryHash_read files [] with
      | Err err => Err err
      | Ok written => Ok (hex_EncodeToString (sha256_Sum written))
      end
  end.
End computeDirectoryHash.

Module fixtures_util.
(** A quoting that only adds the double quotes: Go's for plain strings. *)
Definition quote_plain (s : string) : string :=
  String (ascii_of_nat 34) (s ++ String (ascii_of_nat 34) "").

(** Two files and a directory; the second file cannot be read. *)
Definition tree : list Visit :=
  [mkVisit "d" true None; mkVisit "d/a" false None; mkVisit "d/b" false None].
Definition disk (path : string) : result (list byte) :=
  if String.eqb path "d/a" then Ok [x01; x02]
  else if String.eqb path "d/b" then Ok [x03]
  else Err "no such file".
(** A stand-in for the digest: the bytes themselves. *)
Definition digest (bytes : list byte) : list byte := bytes.
End fixtures_util.

(* ===================================================================== *)
(** * Properties *)
(* ===================================================================== *)

(** ** Identifiers and their canonical strings *)

Lemma unhex_hex (b : byte) : uuid.unhex (uuid.hexhi b) (uuid.hexlo b) = b.
Proof. destruct b; reflexivity. Qed.

Lemma hex_inj b c : uuid.hexhi b = uuid.hexhi c → uuid.hexlo b = uuid.hexlo c → b = c.
Proof.
  intros Hhi Hlo. rewrite <- (unhex_hex b), <- (unhex_hex c). congruence.
Qed.

Lemma uuid_String_inj u v : uuid.String u = uuid.String v → u = v.
Proof.
  destruct u, v. unfold uuid.String, uuid.hex2. cbn [uuid.b0 uuid.b1 uuid.b2
    uuid.b3 uuid.b4 uuid.b5 uuid.b6 uuid.b7 uuid.b8 uuid.b9 uuid.b10 uuid.b11
    uuid.b12 uuid.b13 uuid.b14 uuid.b15].
  intros [= ]. f_equal; by apply hex_inj.
Qed.

Global Instance uuid_String_Inj : Inj (=) (=) uuid.String.
Proof. intros u v. apply uuid_String_inj. Qed.


(** ** [memberDiff] *)

Section memberDiff_loops.
Implicit Types (cur : list uuid.UUID) (planned : list UUID).
Implicit Types (S curSet planSet : uuidset).

Lemma curSet_fold_elem_of cur S x :
  x ∈ foldl (λ curSet userID, {[ userID ]} ∪ curSet) S cur ↔ x ∈ S ∨ x ∈ cur.
Proof.
  revert S. induction cur as [|c cur IH]; intros S; simpl.
  - set_solver.
  - rewrite IH. set_solver.
Qed.

Lemma memberDiff_curSet_elem_of cur x : x ∈ memberDiff_curSet cur ↔ x ∈ cur.
Proof. unfold memberDiff_curSet. rewrite curSet_fold_elem_of. set_solver. Qed.

(** The second loop from any intermediate state. *)
Lemma plan_fold curSet planned S (add : list string) :
  foldl (λ '((planSet, add) : uuidset * list string) plannedUserID,
           let planSet := {[ ValueUUID plannedUserID ]} ∪ planSet in
           if decide (ValueUUID plannedUserID ∈ curSet)
           then (planSet, add)
           else (planSet, (add ++ [ValueString plannedUserID])%list))
        (S, add) planned
  = (list_to_set (ValueUUID <$> reverse planned) ∪ S,
     (add ++ (ValueString <$> filter (λ p, ValueUUID p ∉ curSet) planned))%list).
Proof.
  revert S add. induction planned as [|p planned IH]; intros S add.
  - simpl. f_equal; [set_solver | by rewrite app_nil_r].
  - cbn [foldl]. destruct (decide (ValueUUID p ∈ curSet)) as [Hin|Hin].
    + rewrite IH. rewrite reverse_cons, fmap_app, list_to_set_app_L.
      rewrite filter_cons_False by (intros H; by apply H).
      f_equal. simpl. set_solver.
    + rewrite IH. rewrite reverse_cons, fmap_app, list_to_set_app_L.
      rewrite filter_cons_True by done.
      f_equal; [simpl; set_solver|].
      by rewrite fmap_cons, <- app_assoc.
Qed.

Lemma memberDiff_plan_eq curSet planned :
  memberDiff_plan curSet planned
  = (list_to_set (ValueUUID <$> planned),
     ValueString <$> filter (λ p, ValueUUID p ∉ curSet) planned).
Proof.
  unfold memberDiff_plan. rewrite plan_fold. f_equal.
  apply set_eq. intros x.
  rewrite elem_of_union, !elem_of_list_to_set, !list_elem_of_fmap.
  setoid_rewrite elem_of_reverse. set_solver.
Qed.

(** The third loop from any intermediate state. *)
Lemma remove_fold planSet cur (remove : list string) :
  foldl (λ (remove : list string) curUserID,
           if decide (curUserID ∈ planSet)
           then remove
           else (remove ++ [uuid.String curUserID])%list)
        remove cur
  = (remove ++ (uuid.String <$> filter (λ c, c ∉ planSet) cur))%list.
Proof.
  revert remove. induction cur as [|c cur IH]; intros remove.
  - simpl. by rewrite app_nil_r.
  - cbn [foldl]. destruct (decide (c ∈ planSet)) as [Hin|Hin]; rewrite IH.
    + by rewrite filter_cons_False by (intros H; by apply H).
    + rewrite filter_cons_True by done. by rewrite fmap_cons, <- app_assoc.
Qed.

Lemma memberDiff_remove_eq planSet cur :
  memberDiff_remove planSet cur
  = uuid.String <$> filter (λ c, c ∉ planSet) cur.
Proof. unfold memberDiff_remove. by rewrite remove_fold. Qed.

End memberDiff_loops.

(** [memberDiff] on planned members built by [UUIDValue], as two filters. *)
Lemma memberDiff_filter (current desired : list uuid.UUID) :
  memberDiff current (UUIDValue <$> desired)
  = (uuid.String <$> filter (λ d, d ∉ current) desired,
     uuid.String <$> filter (λ c, c ∉ desired) current).
Proof.
  unfold memberDiff. rewrite memberDiff_plan_eq, memberDiff_remove_eq.
  rewrite <- list_fmap_compose.
  replace (ValueUUID ∘ UUIDValue) with (@id uuid.UUID) by done.
  rewrite list_fmap_id. f_equal.
  - induction desired as [|d desired IH]; [done|].
    rewrite fmap_cons.
    destruct (decide (d ∈ current)) as [Hin|Hin].
    + rewrite !filter_cons_False; [done| |].
      * intros H. by apply H.
      * simpl. intros H. apply H. by apply memberDiff_curSet_elem_of.
    + rewrite !filter_cons_True; [|done|].
      * rewrite !fmap_cons. by rewrite IH.
      * simpl. by rewrite memberDiff_curSet_elem_of.
  - f_equal. apply list_filter_iff. intros c.
    by rewrite elem_of_list_to_set.
Qed.

Lemma elem_of_strings_of ids u : uuid.String u ∈ strings_of ids ↔ u ∈ ids.
Proof.
  unfold strings_of. rewrite elem_of_list_to_set, list_elem_of_fmap. split.
  - intros (v & Heq & Hv). by apply uuid_String_inj in Heq as ->.
  - intros Hu. by exists u.
Qed.

(** C1.  For all lists of member identifiers [current] and [desired]
    (duplicate-free or not), [memberDiff] returns [(toAdd, toRemove)] where
    [toAdd] lists exactly the identifiers of [desired] that are not in
    [current] and [toRemove] exactly those of [current] that are not in
    [desired].  Viewed as sets of canonical identifier strings:
    [(current ∪ toAdd) ∖ toRemove = desired], [toAdd] is disjoint from
    [current], and [toRemove] is disjoint from [desired]. *)
Theorem memberDiff_sets (current desired : list uuid.UUID) :
  let '(toAdd, toRemove) := memberDiff current (UUIDValue <$> desired) in
  let C := strings_of current in
  let D := strings_of desired in
  list_to_set toAdd = D ∖ C
  ∧ list_to_set toRemove = C ∖ D
  ∧ (C ∪ list_to_set toAdd) ∖ list_to_set toRemove = D
  ∧ list_to_set toAdd ## C
  ∧ list_to_set toRemove ## D.
Proof.
  rewrite memberDiff_filter. cbv zeta.
  assert (Hadd : list_to_set (uuid.String <$> filter (λ d, d ∉ current) desired)
                 = strings_of desired ∖ strings_of current).
  { apply set_eq. intros s.
    rewrite elem_of_difference, elem_of_list_to_set, list_elem_of_fmap. split.
    - intros (d & -> & [Hn Hd]%list_elem_of_filter).
      by rewrite !elem_of_strings_of.
    - unfold strings_of at 1.
      rewrite elem_of_list_to_set, list_elem_of_fmap.
      intros [(d & -> & Hd) Hn]. exists d. split; [done|].
      apply list_elem_of_filter. split; [|done].
      by rewrite <- elem_of_strings_of. }
  assert (Hrem : list_to_set (uuid.String <$> filter (λ c, c ∉ desired) current)
                 = strings_of current ∖ strings_of desired).
  { apply set_eq. intros s.
    rewrite elem_of_difference, elem_of_list_to_set, list_elem_of_fmap. split.
    - intros (c & -> & [Hn Hc]%list_elem_of_filter).
      by rewrite !elem_of_strings_of.
    - unfold strings_of at 1.
      rewrite elem_of_list_to_set, list_elem_of_fmap.
      intros [(c & -> & Hc) Hn]. exists c. split; [done|].
      apply list_elem_of_filter. split; [|done].
      by rewrite <- elem_of_strings_of. }
  rewrite Hadd, Hrem. clear Hadd Hrem.
  generalize (strings_of current) (strings_of desired). intros C D.
  repeat split.
  - apply set_eq. intros s.
    rewrite elem_of_difference, elem_of_union, !elem_of_difference.
    destruct (decide (s ∈ C)), (decide (s ∈ D)); tauto.
  - intros s. rewrite elem_of_difference. tauto.
  - intros s. rewrite elem_of_difference. tauto.
Qed.

Lemma filter_none {A} (P : A → Prop) `{!∀ x, Decision (P x)} (l : list A) :
  (∀ x, x ∈ l → ¬ P x) → filter P l = [].
Proof.
  induction l as [|a l IH]; intros Hall; [done|].
  rewrite filter_cons_False by (apply Hall; left).
  apply IH. intros x Hx. apply Hall. by right.
Qed.

Lemma filter_all {A} (P : A → Prop) `{!∀ x, Decision (P x)} (l : list A) :
  (∀ x, x ∈ l → P x) → filter P l = l.
Proof.
  induction l as [|a l IH]; intros Hall; [done|].
  rewrite filter_cons_True by (apply Hall; left).
  f_equal. apply IH. intros x Hx. apply Hall. by right.
Qed.

(** C9.  [memberDiff S S] is a pair of empty lists; [memberDiff ∅ X] adds
    all of [X] and removes nothing; [memberDiff X ∅] adds nothing and
    removes all of [X]. *)
Theorem memberDiff_identities (S X : list uuid.UUID) :
  memberDiff S (UUIDValue <$> S) = ([], [])
  ∧ memberDiff [] (UUIDValue <$> X) = (uuid.String <$> X, [])
  ∧ memberDiff X (UUIDValue <$> []) = ([], uuid.String <$> X).
Proof.
  rewrite !memberDiff_filter. repeat split.
  - rewrite (filter_none (λ d, d ∉ S) S); [done|]. intros x Hx Hn. by apply Hn.
  - rewrite (filter_all (λ d, d ∉ []) X); [done|]. intros x _. apply not_elem_of_nil.
  - rewrite (filter_all (λ c, c ∉ []) X); [done|]. intros x _. apply not_elem_of_nil.
Qed.

(** ** Diagnostics *)

Lemma HasError_app (ds1 ds2 : Diagnostics) :
  HasError (ds1 ++ ds2)%list = HasError ds1 || HasError ds2.
Proof. unfold HasError. apply existsb_app. Qed.

Lemma HasError_elem_of (ds : Diagnostics) d :
  d ∈ ds → diag_Severity d = SeverityError → HasError ds = true.
Proof.
  intros Hd Hsev. unfold HasError. apply existsb_exists. exists d.
  split; [by apply list_elem_of_In | by apply bool_decide_eq_true].
Qed.

Lemma Diagnostics_Append_elem_of (ds new : Diagnostics) d :
  d ∈ Diagnostics_Append ds new ↔ d ∈ ds ∨ d ∈ new.
Proof.
  unfold Diagnostics_Append. revert ds.
  induction new as [|n new IH]; intros ds; simpl.
  - rewrite elem_of_nil. tauto.
  - rewrite IH, elem_of_cons. destruct (decide (n ∈ ds)) as [Hin|Hin].
    + split; [tauto|]. intros [?|[->|?]]; tauto.
    + rewrite elem_of_app, list_elem_of_singleton. tauto.
Qed.

Lemma HasError_Append (ds new : Diagnostics) :
  HasError (Diagnostics_Append ds new) = HasError ds || HasError new.
Proof.
  unfold Diagnostics_Append. revert ds.
  induction new as [|n new IH]; intros ds; simpl.
  - by rewrite orb_false_r.
  - rewrite IH. destruct (decide (n ∈ ds)) as [Hin|Hin].
    + destruct (bool_decide (diag_Severity n = SeverityError)) eqn:Hsev; simpl.
      * apply bool_decide_eq_true in Hsev.
        rewrite (HasError_elem_of ds n Hin Hsev). done.
      * done.
    + rewrite HasError_app. simpl. rewrite orb_false_r. by rewrite orb_assoc.
Qed.

Lemma Diagnostics_Append_nil (ds : Diagnostics) : Diagnostics_Append ds [] = ds.
Proof. done. Qed.

Lemma HasError_AddError (ds : Diagnostics) summary detail :
  HasError (Diagnostics_AddError ds summary detail) = true.
Proof.
  unfold Diagnostics_AddError. rewrite HasError_Append. simpl.
  apply orb_true_r.
Qed.

Lemma AddError_elem_of (ds : Diagnostics) summary detail :
  NewErrorDiagnostic summary detail ∈ Diagnostics_AddError ds summary detail.
Proof.
  unfold Diagnostics_AddError. apply Diagnostics_Append_elem_of. right.
  apply list_elem_of_singleton. done.
Qed.

Lemma CheckGroupEntitlements_enabled features :
  codersdk.Feature.Enabled (feature features codersdk.FeatureTemplateRBAC) = true →
  CheckGroupEntitlements features = [].
Proof. unfold CheckGroupEntitlements. by intros ->. Qed.

Lemma CheckGroupEntitlements_disabled features :
  codersdk.Feature.Enabled (feature features codersdk.FeatureTemplateRBAC) = false →
  CheckGroupEntitlements features = [entitlement_error].
Proof. unfold CheckGroupEntitlements. by intros ->. Qed.

(** ** [Create] *)

Lemma ElementsAs_strings_convertible (s : types_Set.t) :
  types_Set.convertible s = true →
  types_Set.ElementsAs_strings s = ([], types_Set.strings s).
Proof.
  destruct s as [| |elems]; simpl; [done|done|]. by intros ->.
Qed.

(** C5.  With the template-RBAC feature disabled, [Create] makes no remote
    call at all and leaves the world and the stored state as they were; the
    response carries an error, and it carries the entitlement error
    whenever the plan itself was read without error. *)
Theorem Create_entitlement_denied {W} (r : GroupResource W)
    (req : CreateRequest) (resp : Response) (w : W) :
  codersdk.Feature.Enabled
    (feature (Features (r_data r)) codersdk.FeatureTemplateRBAC) = false →
  let '(resp', st) := run (Create r req resp) w in
  calls st = []
  ∧ world st = w
  ∧ resp_State resp' = resp_State resp
  ∧ HasError (resp_Diagnostics resp') = true
  ∧ (HasError (resp_Diagnostics (Append resp (Get_diags (create_Plan req)))) = false →
     entitlement_error ∈ resp_Diagnostics resp').
Proof.
  intros Hoff. unfold run, Create.
  destruct (HasError (resp_Diagnostics (Append resp (Get_diags (create_Plan req)))))
    eqn:Hplan.
  - unfold ret. cbv beta iota. repeat split; done.
  - rewrite (CheckGroupEntitlements_disabled _ Hoff).
    assert (Herr : HasError (resp_Diagnostics
              (Append (Append resp (Get_diags (create_Plan req)))
                      [entitlement_error])) = true).
    { cbn [Append resp_Diagnostics]. rewrite HasError_Append. apply orb_true_r. }
    rewrite Herr. unfold ret. cbv beta iota. repeat split; try done.
    intros _. cbn [Append resp_Diagnostics].
    apply Diagnostics_Append_elem_of. right. by left.
Qed.

Lemma Create_entitlement_denied_witness :
  let r := fixtures.resource (fixtures.service true "user") fixtures.unlicensed in
  let '(resp', st) :=
    run (Create r (mkCreateRequest (fixtures.plan (fixtures.managed [fixtures.u1])))
                fixtures.fresh) 0%nat in
  calls st = []
  ∧ world st = 0%nat
  ∧ resp_State resp' = None
  ∧ HasError (resp_Diagnostics resp') = true
  ∧ (HasError [] = false → entitlement_error ∈ resp_Diagnostics resp').
Proof.
  exact (Create_entitlement_denied
           (fixtures.resource (fixtures.service true "user") fixtures.unlicensed)
           (mkCreateRequest (fixtures.plan (fixtures.managed [fixtures.u1])))
           fixtures.fresh 0%nat eq_refl).
Defined.

Lemma Members_default_org {W} (r : GroupResource W) data :
  Members (default_org r data) = Members data.
Proof. unfold default_org. by destruct (IsUnknown (OrganizationID data)). Qed.

Lemma Append_nil resp : Append resp [] = resp.
Proof. by destruct resp. Qed.

(** *** Validation of the member set *)

Lemma Validate_cases (s : types_Set.t) :
  types_Set.Validate s = [] ∨ types_Set.Validate s = [types_Set.duplicate_error].
Proof.
  destruct s as [| |elems]; simpl; [by left|by left|].
  destruct (decide (NoDup elems)); [by left|by right].
Qed.

(** A plan or state that was read without error has a valid member set. *)
Lemma Get_valid resp (src : Source) :
  HasError (resp_Diagnostics (Append resp (Get_diags src))) = false →
  types_Set.Validate (Members (Get_data src)) = [].
Proof.
  cbn [Append resp_Diagnostics]. unfold Get_diags, Get_data.
  rewrite !HasError_Append. intros [_ [_ Hvalid]%orb_false_elim]%orb_false_elim.
  destruct (Validate_cases (Members (decode_data src))) as [H|H]; [done|].
  by rewrite H in Hvalid.
Qed.

Lemma Set_and_Append_valid resp data :
  types_Set.Validate (Members data) = [] →
  Set_and_Append resp data = SetState resp (Some data).
Proof.
  unfold Set_and_Append, State_Set. intros ->. by rewrite Append_nil.
Qed.


(** [Create] once the plan is read, the feature is enabled, the create call
    has succeeded and the members convert: what is left is the patch call. *)
Lemma Create_after_create {W} (r : GroupResource W) (req : CreateRequest)
    (resp : Response) (w w1 : W) (group : codersdk.Group.t) :
  let plan := create_Plan req in
  let data := default_org r (Get_data plan) in
  let orgID := ValueUUID (OrganizationID data) in
  let resp1 := Append resp (Get_diags plan) in
  let patchReq := members_request (types_Set.strings (Members (Get_data plan))) in
  HasError (resp_Diagnostics resp1) = false →
  codersdk.Feature.Enabled
    (feature (Features (r_data r)) codersdk.FeatureTemplateRBAC) = true →
  CreateGroup (data_Client (r_data r)) orgID (create_request data) w
    = (Ok group, w1) →
  types_Set.convertible (Members (Get_data plan)) = true →
  run (Create r req resp) w
  = match PatchGroup (data_Client (r_data r)) (codersdk.Group.ID group) patchReq w1 with
    | (Err err, w2) =>
        (AddError resp1 "Client Error"
                  ("Unable to add members to group, got error: " ++ err),
         mkSt w2 [mkEvent (CallCreateGroup orgID (create_request data)) false;
                  mkEvent (CallPatchGroup (codersdk.Group.ID group) patchReq) true])
    | (Ok _, w2) =>
        (SetState resp1 (Some (created_model r plan group)),
         mkSt w2 [mkEvent (CallCreateGroup orgID (create_request data)) false;
                  mkEvent (CallPatchGroup (codersdk.Group.ID group) patchReq) false])
    end.
Proof.
  intros plan data orgID resp1 patchReq Hplan Hon Hcreate Hconv.
  unfold run, Create. fold plan. fold resp1. rewrite Hplan.
  rewrite (CheckGroupEntitlements_enabled _ Hon), Append_nil, Hplan.
  fold data. fold orgID.
  unfold bind at 1. unfold remote at 1. cbn [world log].
  rewrite Hcreate. cbv beta iota.
  cbn [with_ID with_DisplayName Members].
  unfold data at 1. rewrite Members_default_org.
  rewrite (ElementsAs_strings_convertible _ Hconv).
  rewrite Append_nil, Hplan. fold patchReq.
  unfold bind, remote. cbn [world log is_err app].
  destruct (PatchGroup (data_Client (r_data r)) (codersdk.Group.ID group) patchReq w1)
    as [[v|err] w2]; [|reflexivity].
  cbv beta iota. unfold ret. f_equal.
  change (with_DisplayName _ _) with (created_model r plan group).
  apply Set_and_Append_valid.
  unfold created_model. cbn [with_ID with_DisplayName Members].
  rewrite Members_default_org. exact (Get_valid resp plan Hplan).
Qed.

(** C2, as the code has it.  Once the create call has succeeded, [Create]
    issues exactly one patch call after it, whether the membership is
    managed or not: its [AddUsers] are the desired members when the
    membership is managed and empty when it is null, and it never carries
    [RemoveUsers] or any other field. *)
Theorem Create_patch_call {W} (r : GroupResource W) (req : CreateRequest)
    (resp : Response) (w w1 : W) (group : codersdk.Group.t) :
  let plan := create_Plan req in
  let data := default_org r (Get_data plan) in
  let orgID := ValueUUID (OrganizationID data) in
  HasError (resp_Diagnostics (Append resp (Get_diags plan))) = false →
  codersdk.Feature.Enabled
    (feature (Features (r_data r)) codersdk.FeatureTemplateRBAC) = true →
  CreateGroup (data_Client (r_data r)) orgID (create_request data) w
    = (Ok group, w1) →
  types_Set.convertible (Members (Get_data plan)) = true →
  calls (run (Create r req resp) w).2
  = [ CallCreateGroup orgID (create_request data);
      CallPatchGroup (codersdk.Group.ID group)
        (codersdk.PatchGroupRequest.mk
           match Members (Get_data plan) with
           | Known elems => ValueString <$> elems
           | _ => []
           end
           [] "" None None None) ].
Proof.
  intros plan data orgID Hplan Hon Hcreate Hconv.
  rewrite (Create_after_create r req resp w w1 group Hplan Hon Hcreate Hconv).
  fold plan.
  destruct (PatchGroup _ _ _ w1) as [[v|err] w2]; reflexivity.
Qed.

Lemma Create_patch_call_witness :
  calls (run (Create (fixtures.resource (fixtures.service true "user") fixtures.licensed)
                     (mkCreateRequest
                        (fixtures.plan (fixtures.managed [fixtures.u1; fixtures.u2])))
                     fixtures.fresh) 0%nat).2
  = [ CallCreateGroup fixtures.orgid
        (codersdk.CreateGroupRequest.mk "devs" "Developers" "" 5);
      CallPatchGroup fixtures.gid
        (codersdk.PatchGroupRequest.mk
           [uuid.String fixtures.u1; uuid.String fixtures.u2]
           [] "" None None None) ].
Proof.
  exact (Create_patch_call
           (fixtures.resource (fixtures.service true "user") fixtures.licensed)
           (mkCreateRequest
              (fixtures.plan (fixtures.managed [fixtures.u1; fixtures.u2])))
           fixtures.fresh 0%nat 1%nat _ eq_refl eq_refl eq_refl eq_refl).
Defined.

(** C2 as stated fails: with a null (unmanaged) membership and a service
    that accepts every call, [Create] still issues a patch call after the
    create call. *)
Lemma Create_unmanaged_still_patches :
  let req := mkCreateRequest (fixtures.plan Null) in
  Members (Get_data (create_Plan req)) = Null
  ∧ calls (run (Create (fixtures.resource (fixtures.service true "user")
                                          fixtures.licensed)
                       req fixtures.fresh) 0%nat).2
    = [ CallCreateGroup fixtures.orgid
          (codersdk.CreateGroupRequest.mk "devs" "Developers" "" 5);
        CallPatchGroup fixtures.gid
          (codersdk.PatchGroupRequest.mk [] [] "" None None None) ]
  ∧ ¬ (filter (λ c, is_patch c = true)
         (calls (run (Create (fixtures.resource (fixtures.service true "user")
                                                fixtures.licensed)
                             req fixtures.fresh) 0%nat).2) = []).
Proof. vm_compute. split; [done|]. split; [done|]. discriminate. Qed.

(** C7.  When the patch call fails after the create call has succeeded,
    [Create] returns with that error: the log holds the create call and
    the failed patch call and nothing after them, so no delete call (and
    no other call) is made, and nothing is written to the state. *)
Theorem Create_patch_failure_no_rollback {W} (r : GroupResource W)
    (req : CreateRequest) (resp : Response) (w w1 w2 : W)
    (group : codersdk.Group.t) (err : error) :
  let plan := create_Plan req in
  let data := default_org r (Get_data plan) in
  let orgID := ValueUUID (OrganizationID data) in
  let patchReq := members_request (types_Set.strings (Members (Get_data plan))) in
  HasError (resp_Diagnostics (Append resp (Get_diags plan))) = false →
  codersdk.Feature.Enabled
    (feature (Features (r_data r)) codersdk.FeatureTemplateRBAC) = true →
  CreateGroup (data_Client (r_data r)) orgID (create_request data) w
    = (Ok group, w1) →
  types_Set.convertible (Members (Get_data plan)) = true →
  PatchGroup (data_Client (r_data r)) (codersdk.Group.ID group) patchReq w1
    = (Err err, w2) →
  let '(resp', st) := run (Create r req resp) w in
  log st = [ mkEvent (CallCreateGroup orgID (create_request data)) false;
             mkEvent (CallPatchGroup (codersdk.Group.ID group) patchReq) true ]
  ∧ (∀ id, CallDeleteGroup id ∉ calls st)
  ∧ world st = w2
  ∧ resp_State resp' = resp_State resp
  ∧ NewErrorDiagnostic "Client Error"
      ("Unable to add members to group, got error: " ++ err)
    ∈ resp_Diagnostics resp'.
Proof.
  intros plan data orgID patchReq Hplan Hon Hcreate Hconv Hpatch.
  rewrite (Create_after_create r req resp w w1 group Hplan Hon Hcreate Hconv).
  fold plan data orgID patchReq. rewrite Hpatch.
  repeat split; try done.
  - intros id. unfold calls. cbn [log fmap list_fmap ev_call].
    rewrite !elem_of_cons, elem_of_nil. intros [?|[?|?]]; done.
  - apply AddError_elem_of.
Qed.

Lemma Create_patch_failure_no_rollback_witness :
  let '(resp', st) :=
    run (Create (fixtures.resource (fixtures.service false "user") fixtures.licensed)
                (mkCreateRequest (fixtures.plan (fixtures.managed [fixtures.u1])))
                fixtures.fresh) 0%nat in
  log st = [ mkEvent (CallCreateGroup fixtures.orgid
                        (codersdk.CreateGroupRequest.mk "devs" "Developers" "" 5))
                     false;
             mkEvent (CallPatchGroup fixtures.gid
                        (members_request [uuid.String fixtures.u1])) true ]
  ∧ (∀ id, CallDeleteGroup id ∉ calls st)
  ∧ world st = 2%nat
  ∧ resp_State resp' = None
  ∧ NewErrorDiagnostic "Client Error"
      "Unable to add members to group, got error: patch refused"
    ∈ resp_Diagnostics resp'.
Proof.
  exact (Create_patch_failure_no_rollback
           (fixtures.resource (fixtures.service false "user") fixtures.licensed)
           (mkCreateRequest (fixtures.plan (fixtures.managed [fixtures.u1])))
           fixtures.fresh 0%nat 1%nat 2%nat _ "patch refused"
           eq_refl eq_refl eq_refl eq_refl eq_refl).
Defined.

(** ** [Read] *)

Global Instance UUIDValue_inj : Inj (=) (=) UUIDValue.
Proof. by intros u v [= ->]. Qed.


(** [Read] once the prior state is read and the group is fetched. *)
Lemma Read_after_fetch {W} (r : GroupResource W) (req : ReadRequest)
    (resp : Response) (w w1 : W) (group : codersdk.Group.t) :
  let prior := Get_data (read_State req) in
  let resp1 := Append resp (Get_diags (read_State req)) in
  HasError (resp_Diagnostics resp1) = false →
  Group (data_Client (r_data r)) (ValueUUID (ID prior)) w = (Ok group, w1) →
  run (Read r req resp) w
  = (Set_and_Append resp1 (refreshed_model prior group),
     mkSt w1 [mkEvent (CallGroup (ValueUUID (ID prior))) false]).
Proof.
  intros prior resp1 Hstate Hfetch.
  unfold run, Read. fold prior resp1. rewrite Hstate.
  unfold bind, remote. cbn [world log]. rewrite Hfetch. cbv beta iota.
  unfold ret. f_equal. f_equal. unfold refreshed_model.
  destruct prior as [id name dn av q org ms].
  cbn [with_Name with_DisplayName with_AvatarURL with_QuotaAllowance
       with_OrganizationID with_Members Members ID Name DisplayName AvatarURL
       QuotaAllowance OrganizationID].
  by destruct (negb (IsNull ms)).
Qed.



(** ** [Update] *)

Lemma default_org_fields {W} (r : GroupResource W) data :
  ID (default_org r data) = ID data
  ∧ Name (default_org r data) = Name data
  ∧ DisplayName (default_org r data) = DisplayName data
  ∧ AvatarURL (default_org r data) = AvatarURL data
  ∧ QuotaAllowance (default_org r data) = QuotaAllowance data.
Proof. unfold default_org. by destruct (IsUnknown (OrganizationID data)). Qed.

Lemma update_request_default_org {W} (r : GroupResource W) data add remove :
  update_request (default_org r data) add remove = update_request data add remove.
Proof.
  unfold update_request.
  destruct (default_org_fields r data) as (_ & -> & -> & -> & ->). done.
Qed.

(** The membership changes that [Update] sends, from the planned members
    and the group it has just fetched. *)
Lemma Update_patch_calls {W} (r : GroupResource W) data group add remove resp
    (st : St W) :
  calls (Update_patch r data group add remove resp st).2
  = (calls st ++ [CallPatchGroup (codersdk.Group.ID group)
                                 (update_request data add remove)])%list.
Proof.
  unfold Update_patch, bind, remote.
  destruct (PatchGroup _ _ _ (world st)) as [[v|err] w2];
    unfold calls; cbn [snd log ret]; by rewrite fmap_app.
Qed.

(** C3.  [Update] first fetches the group by the planned identifier.  If
    that fails, it makes no other call.  Otherwise it makes exactly one
    more call, a patch of the fetched group that carries the name, display
    name, avatar URL and quota of the plan together with the membership
    changes: those that [memberDiff] computes from the members of the
    group just fetched and the planned members when the membership is
    managed, and none when it is null.  The prior state of the request
    plays no part in any of this. *)
Theorem Update_refetch_then_patch {W} (r : GroupResource W)
    (req : UpdateRequest) (resp : Response) (w : W) :
  let plan := Get_data (update_Plan req) in
  let groupID := ValueUUID (ID plan) in
  HasError (resp_Diagnostics (Append resp (Get_diags (update_Plan req)))) = false →
  Members plan ≠ Unknown →
  (∀ prior, run (Update r (mkUpdateRequest (update_Plan req) prior) resp) w
            = run (Update r req resp) w)
  ∧ match Group (data_Client (r_data r)) groupID w with
    | (Err _, _) =>
        calls (run (Update r req resp) w).2 = [CallGroup groupID]
    | (Ok group, _) =>
        let '(add, remove) :=
          match Members plan with
          | Known planned =>
              memberDiff (codersdk.ReducedUser.ID <$> codersdk.Group.Members group)
                         planned
          | _ => ([], [])
          end in
        calls (run (Update r req resp) w).2
        = [ CallGroup groupID;
            CallPatchGroup (codersdk.Group.ID group)
              (codersdk.PatchGroupRequest.mk
                 add remove
                 (types.ValueString (Name plan))
                 (types.ValueStringPointer (AvatarURL plan))
                 (Some (types.ValueInt32 (QuotaAllowance plan)))
                 (types.ValueStringPointer (DisplayName plan))) ]
    end.
Proof.
  intros plan groupID Hplan Hknown. split; [done|].
  destruct (Group (data_Client (r_data r)) groupID w) as [[group|err] w1]
    eqn:Hfetch.
  - unfold run, Update. rewrite Hplan. fold plan.
    destruct (default_org_fields r plan) as (-> & _). fold groupID.
    unfold bind at 1. unfold remote at 1. cbn [world log].
    rewrite Hfetch. cbv beta iota.
    rewrite Members_default_org.
    destruct (Members plan) as [| |planned] eqn:Hm; [|done|].
    + cbn [IsNull negb]. rewrite Update_patch_calls, update_request_default_org.
      reflexivity.
    + cbn [IsNull negb types_Set.ElementsAs_UUIDs].
      rewrite Append_nil, Hplan.
      destruct (memberDiff _ planned) as [add remove].
      rewrite Update_patch_calls, update_request_default_org. reflexivity.
  - unfold run, Update. rewrite Hplan. fold plan.
    destruct (default_org_fields r plan) as (-> & _). fold groupID.
    unfold bind at 1. unfold remote at 1. cbn [world log].
    rewrite Hfetch. reflexivity.
Qed.

Lemma Update_refetch_then_patch_witness :
  let r := fixtures.resource (fixtures.service true "user") fixtures.licensed in
  let req := mkUpdateRequest (fixtures.plan (fixtures.managed [fixtures.u2; fixtures.u3]))
                             (fixtures.plan Null) in
  calls (run (Update r req fixtures.fresh) 0%nat).2
  = [ CallGroup fixtures.gid;
      CallPatchGroup fixtures.gid
        (codersdk.PatchGroupRequest.mk
           [uuid.String fixtures.u3] [uuid.String fixtures.u1]
           "devs" (Some "") (Some 5) (Some "Developers")) ].
Proof.
  pose proof (Update_refetch_then_patch
                (fixtures.resource (fixtures.service true "user") fixtures.licensed)
                (mkUpdateRequest
                   (fixtures.plan (fixtures.managed [fixtures.u2; fixtures.u3]))
                   (fixtures.plan Null))
                fixtures.fresh 0%nat eq_refl ltac:(discriminate)) as [_ H].
  vm_compute in H. vm_compute. exact H.
Defined.

(** ** [ImportState] *)

(** The run of the resolution, case by case. *)
Lemma ImportState_resolve_run {W} (parse : string → result uuid.UUID)
    (r : GroupResource W) (req : ImportStateRequest) (resp : Response) (w : W) :
  let id := import_ID req in
  let client := data_Client (r_data r) in
  let '(res, st) := run (ImportState_resolve parse r req resp) w in
  match strings_Split id "/" with
  | [ _ ] =>
      log st = [] ∧ world st = w
      ∧ res = match parse id with
              | Err err =>
                  inl (AddError resp "Client Error"
                         ("Unable to parse import group ID as UUID, got error: "
                          ++ err))
              | Ok groupID => inr groupID
              end
  | [ orgName; groupName ] =>
      match OrganizationByName client orgName w with
      | (Err err, w1) =>
          log st = [mkEvent (CallOrganizationByName orgName) true]
          ∧ world st = w1
          ∧ res = inl (AddError resp "Client Error"
                         ("Failed to get organization with name " ++ orgName
                          ++ ": " ++ err))
      | (Ok org, w1) =>
          let orgID := codersdk.Organization.ID org in
          match GroupByOrgAndName client orgID groupName w1 with
          | (Err err, w2) =>
              log st = [mkEvent (CallOrganizationByName orgName) false;
                        mkEvent (CallGroupByOrgAndName orgID groupName) true]
              ∧ world st = w2
              ∧ res = inl (AddError resp "Client Error"
                             ("Failed to get group with name " ++ groupName
                              ++ ": " ++ err))
          | (Ok group, w2) =>
              log st = [mkEvent (CallOrganizationByName orgName) false;
                        mkEvent (CallGroupByOrgAndName orgID groupName) false]
              ∧ world st = w2
              ∧ res = inr (codersdk.Group.ID group)
          end
      end
  | _ =>
      log st = [] ∧ world st = w
      ∧ res = inl (AddError resp "Client Error"
                "Invalid import ID format, expected a single UUID or `<organization-name>/<group-name>`")
  end.
Proof.
  intros id client.
  destruct (run (ImportState_resolve parse r req resp) w) as [res st] eqn:Hrun.
  revert Hrun. unfold run, ImportState_resolve. fold id client.
  destruct (strings_Split id "/") as [|tok1 [|tok2 [|tok3 rest]]].
  - intros [= <- <-]. done.
  - destruct (parse id) as [groupID|err]; intros [= <- <-]; done.
  - unfold bind at 1. unfold remote at 1. cbn [world log].
    destruct (OrganizationByName client tok1 w) as [[org|err] w1]; cbv beta iota.
    + unfold bind, remote. cbn [world log].
      destruct (GroupByOrgAndName client _ tok2 w1) as [[group|err] w2];
        intros [= <- <-]; done.
    + intros [= <- <-]. done.
  - intros [= <- <-]. done.
Qed.

(** C4.  The resolution of an import identifier.  With one token the
    identifier is parsed as a UUID and no remote call is made, whether it
    parses or not.  With two tokens the organization is looked up by name,
    once; only if that succeeds the group is looked up by organization and
    name, once; each failure ends the resolution with its error.  With any
    other number of tokens the resolution fails without a remote call.
    Whenever the resolution fails, [ImportState] returns that response
    without any further call and without writing the state. *)
Theorem ImportState_resolution {W} (parse : string → result uuid.UUID)
    (r : GroupResource W) (req : ImportStateRequest) (resp : Response) (w : W) :
  let id := import_ID req in
  let client := data_Client (r_data r) in
  let '(res, st) := run (ImportState_resolve parse r req resp) w in
  match strings_Split id "/" with
  | [ _ ] =>
      log st = [] ∧ world st = w
      ∧ res = match parse id with
              | Err err =>
                  inl (AddError resp "Client Error"
                         ("Unable to parse import group ID as UUID, got error: "
                          ++ err))
              | Ok groupID => inr groupID
              end
  | [ orgName; groupName ] =>
      match OrganizationByName client orgName w with
      | (Err err, w1) =>
          log st = [mkEvent (CallOrganizationByName orgName) true]
          ∧ world st = w1
          ∧ res = inl (AddError resp "Client Error"
                         ("Failed to get organization with name " ++ orgName
                          ++ ": " ++ err))
      | (Ok org, w1) =>
          let orgID := codersdk.Organization.ID org in
          match GroupByOrgAndName client orgID groupName w1 with
          | (Err err, w2) =>
              log st = [mkEvent (CallOrganizationByName orgName) false;
                        mkEvent (CallGroupByOrgAndName orgID groupName) true]
              ∧ world st = w2
              ∧ res = inl (AddError resp "Client Error"
                             ("Failed to get group with name " ++ groupName
                              ++ ": " ++ err))
          | (Ok group, w2) =>
              log st = [mkEvent (CallOrganizationByName orgName) false;
                        mkEvent (CallGroupByOrgAndName orgID groupName) false]
              ∧ world st = w2
              ∧ res = inr (codersdk.Group.ID group)
          end
      end
  | _ =>
      log st = [] ∧ world st = w
      ∧ res = inl (AddError resp "Client Error"
                "Invalid import ID format, expected a single UUID or `<organization-name>/<group-name>`")
  end
  ∧ (∀ failed, res = inl failed →
       run (ImportState parse r req resp) w = (failed, st)
       ∧ resp_State failed = resp_State resp
       ∧ HasError (resp_Diagnostics failed) = true).
Proof.
  intros id client.
  pose proof (ImportState_resolve_run parse r req resp w) as Hcases.
  cbv zeta in Hcases. fold id client in Hcases.
  destruct (run (ImportState_resolve parse r req resp) w) as [res st] eqn:Hrun.
  split; [exact Hcases|].
  intros failed ->. split.
  - unfold run, ImportState. unfold bind at 1.
    unfold run in Hrun. rewrite Hrun. reflexivity.
  - destruct (strings_Split id "/") as [|tok1 [|tok2 [|tok3 rest]]].
    + destruct Hcases as (_ & _ & [= ->]). split; [done|apply HasError_AddError].
    + destruct (parse id) as [groupID|err]; destruct Hcases as (_ & _ & [= ->]).
      split; [done|apply HasError_AddError].
    + destruct (OrganizationByName client tok1 w) as [[org|err] w1].
      * destruct (GroupByOrgAndName client _ tok2 w1) as [[group|err] w2];
          destruct Hcases as (_ & _ & [= ->]).
        split; [done|apply HasError_AddError].
      * destruct Hcases as (_ & _ & [= ->]). split; [done|apply HasError_AddError].
    + destruct Hcases as (_ & _ & [= ->]). split; [done|apply HasError_AddError].
Qed.

Lemma ImportState_resolution_witness :
  let r := fixtures.resource (fixtures.service true "user") fixtures.licensed in
  (** three tokens: no call, no state *)
  (let '(resp', st) :=
     run (ImportState fixtures.parse_gid r (mkImportStateRequest "a/b/c")
                      fixtures.fresh) 0%nat in
   log st = [] ∧ resp_State resp' = None
   ∧ HasError (resp_Diagnostics resp') = true)
  (** two tokens: the two lookups, in order *)
  ∧ (run (ImportState_resolve fixtures.parse_gid r (mkImportStateRequest "acme/devs")
                              fixtures.fresh) 0%nat
     = (inr fixtures.gid,
        mkSt 2%nat [mkEvent (CallOrganizationByName "acme") false;
                    mkEvent (CallGroupByOrgAndName fixtures.orgid "devs") false])).
Proof.
  intros r. split.
  - pose proof (ImportState_resolution fixtures.parse_gid r
                  (mkImportStateRequest "a/b/c") fixtures.fresh 0%nat) as H.
    destruct (run (ImportState_resolve _ r (mkImportStateRequest "a/b/c") _) _)
      as [res st] eqn:Hres.
    destruct H as [(Hlog & _ & Hr) Hfail].
    destruct (Hfail _ Hr) as (-> & Hstate & Herr).
    rewrite Hlog. done.
  - pose proof (ImportState_resolution fixtures.parse_gid r
                  (mkImportStateRequest "acme/devs") fixtures.fresh 0%nat) as H.
    destruct (run (ImportState_resolve _ r (mkImportStateRequest "acme/devs") _) _)
      as [res [w' l']] eqn:Hres.
    destruct H as [(Hlog & Hw & Hr) _]. cbn in Hlog, Hw, Hr. by subst.
Defined.

Lemma ImportState_resolve_not_mutating {W} (parse : string → result uuid.UUID)
    (r : GroupResource W) (req : ImportStateRequest) (resp : Response) (w : W) :
  Forall (λ c, is_mutating c = false)
         (calls (run (ImportState_resolve parse r req resp) w).2).
Proof.
  pose proof (ImportState_resolve_run parse r req resp w) as H. cbv zeta in H.
  destruct (run (ImportState_resolve parse r req resp) w) as [res st].
  unfold calls. cbn [snd].
  destruct (strings_Split (import_ID req) "/") as [|tok1 [|tok2 [|tok3 rest]]].
  - destruct H as (-> & _). constructor.
  - destruct H as (-> & _). constructor.
  - destruct (OrganizationByName _ tok1 w) as [[org|err] w1].
    + destruct (GroupByOrgAndName _ _ tok2 w1) as [[group|err] w2];
        destruct H as (-> & _); repeat constructor.
    + destruct H as (-> & _). repeat constructor.
  - destruct H as (-> & _). constructor.
Qed.

(** C6.  When the identifier resolves and the group fetched for it has the
    source "oidc", [ImportState] fails with the error that such groups
    cannot be imported: the fetch is its last call, none of its calls
    changes the remote service, and the state is left as it was, so no
    identifier is stored. *)
Theorem ImportState_rejects_oidc {W} (parse : string → result uuid.UUID)
    (r : GroupResource W) (req : ImportStateRequest) (resp : Response)
    (w w2 : W) (st1 : St W) (groupID : uuid.UUID) (group : codersdk.Group.t) :
  run (ImportState_resolve parse r req resp) w = (inr groupID, st1) →
  Group (data_Client (r_data r)) groupID (world st1) = (Ok group, w2) →
  codersdk.Group.Source group = codersdk.GroupSourceOIDC →
  let '(resp', st) := run (ImportState parse r req resp) w in
  resp' = AddError resp "Client Error" "Cannot import groups created via OIDC"
  ∧ resp_State resp' = resp_State resp
  ∧ HasError (resp_Diagnostics resp') = true
  ∧ log st = (log st1 ++ [mkEvent (CallGroup groupID) false])%list
  ∧ world st = w2
  ∧ Forall (λ c, is_mutating c = false) (calls st).
Proof.
  intros Hres Hfetch Hsrc.
  pose proof (ImportState_resolve_not_mutating parse r req resp w) as Hpure.
  unfold run in *. unfold ImportState. unfold bind at 1. rewrite Hres in *.
  unfold bind, remote. rewrite Hfetch. cbv beta iota. rewrite Hsrc.
  cbn [String.eqb codersdk.GroupSourceOIDC Ascii.eqb Bool.eqb is_err].
  unfold ret. repeat split; try done.
  - apply HasError_AddError.
  - unfold calls in *. cbn [snd log] in *. rewrite fmap_app.
    apply Forall_app. split; [done|]. by repeat constructor.
Qed.

Lemma ImportState_rejects_oidc_witness :
  let '(resp', st) :=
    run (ImportState fixtures.parse_gid
           (fixtures.resource (fixtures.service true "oidc") fixtures.licensed)
           (mkImportStateRequest "acme/devs") fixtures.fresh) 0%nat in
  resp' = AddError fixtures.fresh "Client Error"
                   "Cannot import groups created via OIDC"
  ∧ resp_State resp' = None
  ∧ HasError (resp_Diagnostics resp') = true
  ∧ log st = [mkEvent (CallOrganizationByName "acme") false;
              mkEvent (CallGroupByOrgAndName fixtures.orgid "devs") false;
              mkEvent (CallGroup fixtures.gid) false]
  ∧ world st = 3%nat
  ∧ Forall (λ c, is_mutating c = false) (calls st).
Proof.
  exact (ImportState_rejects_oidc fixtures.parse_gid
           (fixtures.resource (fixtures.service true "oidc") fixtures.licensed)
           (mkImportStateRequest "acme/devs") fixtures.fresh 0%nat 3%nat
           (mkSt 2%nat [mkEvent (CallOrganizationByName "acme") false;
                        mkEvent (CallGroupByOrgAndName fixtures.orgid "devs") false])
           fixtures.gid (fixtures.devs "oidc") eq_refl eq_refl eq_refl).
Defined.

(** ** Remote failures and the stored state *)

(** Case analysis on the innermost scrutinee of the goal. *)
Ltac split_run :=
  repeat match goal with
         | |- context [match ?x with _ => _ end] =>
             lazymatch x with
             | context [match _ with _ => _ end] => fail
             | _ => destruct x eqn:?
             end
         end.

Ltac untouched_or_ok :=
  cbn [fst snd log resp_State SetState AddError Append];
  first [ left; reflexivity
        | right; cbn [app]; repeat constructor ].

(** Each operation ends with the state as it was, or with a log in which
    no call has failed. *)
Lemma Create_untouched_or_ok {W} (r : GroupResource W) req resp (w : W) :
  resp_State (run (Create r req resp) w).1 = resp_State resp
  ∨ Forall (λ e, ev_failed e = false) (log (run (Create r req resp) w).2).
Proof.
  unfold run, Create, bind, remote, ret. cbn [world log].
  split_run; untouched_or_ok.
Qed.

Lemma Read_untouched_or_ok {W} (r : GroupResource W) req resp (w : W) :
  resp_State (run (Read r req resp) w).1 = resp_State resp
  ∨ Forall (λ e, ev_failed e = false) (log (run (Read r req resp) w).2).
Proof.
  unfold run, Read, bind, remote, ret. cbn [world log].
  split_run; untouched_or_ok.
Qed.

Lemma Update_untouched_or_ok {W} (r : GroupResource W) req resp (w : W) :
  resp_State (run (Update r req resp) w).1 = resp_State resp
  ∨ Forall (λ e, ev_failed e = false) (log (run (Update r req resp) w).2).
Proof.
  unfold run, Update, Update_patch, bind, remote, ret. cbn [world log].
  split_run; untouched_or_ok.
Qed.

Lemma failed_not_all_ok (l : list Event) :
  Exists (λ e, ev_failed e = true) l → Forall (λ e, ev_failed e = false) l → False.
Proof.
  intros Hex Hall. apply Exists_exists in Hex as (e & He & Hfailed).
  rewrite Forall_forall in Hall. specialize (Hall e He). congruence.
Qed.

(** C10.  In [Create], [Read] and [Update], whenever a remote call has
    returned an error the operation ends with the state of the response as
    it received it: nothing is written to the state on a path with a
    failed call. *)
Theorem remote_failure_keeps_state {W} (r : GroupResource W) (resp : Response)
    (w : W) :
  (∀ req, Exists (λ e, ev_failed e = true) (log (run (Create r req resp) w).2) →
          resp_State (run (Create r req resp) w).1 = resp_State resp)
  ∧ (∀ req, Exists (λ e, ev_failed e = true) (log (run (Read r req resp) w).2) →
            resp_State (run (Read r req resp) w).1 = resp_State resp)
  ∧ (∀ req, Exists (λ e, ev_failed e = true) (log (run (Update r req resp) w).2) →
            resp_State (run (Update r req resp) w).1 = resp_State resp).
Proof.
  repeat split; intros req Hfailed.
  - destruct (Create_untouched_or_ok r req resp w) as [?|Hok]; [done|].
    destruct (failed_not_all_ok _ Hfailed Hok).
  - destruct (Read_untouched_or_ok r req resp w) as [?|Hok]; [done|].
    destruct (failed_not_all_ok _ Hfailed Hok).
  - destruct (Update_untouched_or_ok r req resp w) as [?|Hok]; [done|].
    destruct (failed_not_all_ok _ Hfailed Hok).
Qed.

Lemma remote_failure_keeps_state_witness :
  let r := fixtures.resource fixtures.down fixtures.licensed in
  let prior := Some (Get_data (fixtures.plan Null)) in
  let resp := mkResponse [] prior in
  resp_State (run (Create r (mkCreateRequest (fixtures.plan Null)) resp) 0%nat).1
    = prior
  ∧ resp_State (run (Read r (mkReadRequest (fixtures.plan Null)) resp) 0%nat).1
    = prior
  ∧ resp_State (run (Update r (mkUpdateRequest
                                 (fixtures.plan (fixtures.managed [fixtures.u1]))
                                 (fixtures.plan Null)) resp) 0%nat).1
    = prior.
Proof.
  intros r prior resp.
  destruct (remote_failure_keeps_state r resp 0%nat) as (Hc & Hr & Hu).
  split; [|split].
  - apply Hc. vm_compute. apply Exists_cons_hd. reflexivity.
  - apply Hr. vm_compute. apply Exists_cons_hd. reflexivity.
  - apply Hu. vm_compute. apply Exists_cons_hd. reflexivity.
Defined.

(* ===================================================================== *)
(** * Further properties of the code *)
(* ===================================================================== *)

(** ** [memberDiff], continued *)

(** X1.  The two lists of [memberDiff] have no string in common. *)
Theorem memberDiff_disjoint (current desired : list uuid.UUID) :
  let '(toAdd, toRemove) := memberDiff current (UUIDValue <$> desired) in
  ∀ s, s ∈ toAdd → s ∈ toRemove → False.
Proof.
  rewrite memberDiff_filter. intros s.
  rewrite !list_elem_of_fmap.
  intros (d & -> & [Hd _]%list_elem_of_filter)
         (c & Heq%uuid_String_inj & [_ Hc]%list_elem_of_filter).
  subst. done.
Qed.

(** X2.  [memberDiff] keeps the order of its inputs, and on duplicate-free
    inputs its outputs are duplicate-free: the additions are a subsequence
    of the desired members and the removals a subsequence of the current
    ones. *)
Theorem memberDiff_order (current desired : list uuid.UUID) :
  let '(toAdd, toRemove) := memberDiff current (UUIDValue <$> desired) in
  toAdd `sublist_of` (uuid.String <$> desired)
  ∧ toRemove `sublist_of` (uuid.String <$> current)
  ∧ (NoDup desired → NoDup toAdd)
  ∧ (NoDup current → NoDup toRemove).
Proof.
  rewrite memberDiff_filter. repeat split.
  - apply fmap_sublist, sublist_filter.
  - apply fmap_sublist, sublist_filter.
  - intros Hnd. apply NoDup_fmap_2; [apply _|]. by apply NoDup_filter.
  - intros Hnd. apply NoDup_fmap_2; [apply _|]. by apply NoDup_filter.
Qed.

Lemma memberDiff_order_witness :
  memberDiff [fixtures.u1; fixtures.u2]
             (UUIDValue <$> [fixtures.u3; fixtures.u2; fixtures.gid])
  = ([uuid.String fixtures.u3; uuid.String fixtures.gid], [uuid.String fixtures.u1])
  ∧ NoDup [uuid.String fixtures.u3; uuid.String fixtures.gid]
  ∧ NoDup [uuid.String fixtures.u1].
Proof.
  pose proof (memberDiff_order [fixtures.u1; fixtures.u2]
                [fixtures.u3; fixtures.u2; fixtures.gid]) as H.
  assert (Heq : memberDiff [fixtures.u1; fixtures.u2]
                  (UUIDValue <$> [fixtures.u3; fixtures.u2; fixtures.gid])
                = ([uuid.String fixtures.u3; uuid.String fixtures.gid],
                   [uuid.String fixtures.u1])) by (vm_compute; reflexivity).
  rewrite Heq in H. destruct H as (_ & _ & Hadd & Hrem).
  split; [exact Heq|]. split.
  - apply Hadd.
    exact (bool_decide_unpack
             (NoDup [fixtures.u3; fixtures.u2; fixtures.gid]) I).
  - apply Hrem.
    exact (bool_decide_unpack (NoDup [fixtures.u1; fixtures.u2]) I).
Defined.

(** X3.  [memberDiff] asks for no change exactly when the current and the
    desired members are the same identifiers, in whatever order. *)
Theorem memberDiff_nothing_iff (current desired : list uuid.UUID) :
  memberDiff current (UUIDValue <$> desired) = ([], [])
  ↔ (∀ u, u ∈ current ↔ u ∈ desired).
Proof.
  rewrite memberDiff_filter. split.
  - intros [= Hadd Hrem] u.
    apply fmap_nil_inv in Hadd. apply fmap_nil_inv in Hrem. split; intros Hu.
    + destruct (decide (u ∈ desired)) as [|Hn]; [done|].
      exfalso. eapply (filter_nil_not_elem_of _ _ u Hrem); done.
    + destruct (decide (u ∈ current)) as [|Hn]; [done|].
      exfalso. eapply (filter_nil_not_elem_of _ _ u Hadd); done.
  - intros Hsame.
    rewrite (filter_none (λ d, d ∉ current) desired),
            (filter_none (λ c, c ∉ desired) current); [done| |].
    + intros u Hu Hn. apply Hn. by apply Hsame.
    + intros u Hu Hn. apply Hn. by apply Hsame.
Qed.

(** ** [CheckGroupEntitlements] *)

(** X4.  [CheckGroupEntitlements] returns the one entitlement error when the
    template-RBAC feature is missing from the map or is present but not
    enabled, and no diagnostic at all when it is present and enabled. *)
Theorem CheckGroupEntitlements_cases
    (features : gmap codersdk.FeatureName codersdk.Feature.t) :
  match features !! codersdk.FeatureTemplateRBAC with
  | None => CheckGroupEntitlements features = [entitlement_error]
  | Some f =>
      CheckGroupEntitlements features
      = if codersdk.Feature.Enabled f then [] else [entitlement_error]
  end.
Proof.
  unfold CheckGroupEntitlements, feature.
  destruct (features !! codersdk.FeatureTemplateRBAC) as [f|]; simpl; [|done].
  by destruct (codersdk.Feature.Enabled f).
Qed.

(** ** Operations that cannot read their plan or state *)

(** X5.  When reading the plan or the prior state gives an error, [Create],
    [Read], [Update] and [Delete] make no remote call, leave the world and
    the state alone and return with the diagnostics of the reading. *)
Theorem unreadable_input_no_call {W} (r : GroupResource W) (resp : Response)
    (w : W) (src : Source) :
  HasError (resp_Diagnostics (Append resp (Get_diags src))) = true →
  run (Create r (mkCreateRequest src) resp) w
    = (Append resp (Get_diags src), mkSt w [])
  ∧ run (Read r (mkReadRequest src) resp) w
    = (Append resp (Get_diags src), mkSt w [])
  ∧ (∀ prior, run (Update r (mkUpdateRequest src prior) resp) w
              = (Append resp (Get_diags src), mkSt w []))
  ∧ run (Delete r (mkDeleteRequest src) resp) w
    = (Append resp (Get_diags src), mkSt w []).
Proof.
  intros Herr. unfold run, Create, Read, Update, Delete.
  cbn [create_Plan read_State update_Plan delete_State].
  rewrite Herr. done.
Qed.

Lemma unreadable_input_no_call_witness :
  let r := fixtures.resource (fixtures.service true "user") fixtures.licensed in
  let src := mkSource [types_Set.conversion_error] null_model in
  run (Delete r (mkDeleteRequest src) fixtures.fresh) 0%nat
  = (mkResponse [types_Set.conversion_error] None, mkSt 0%nat []).
Proof.
  intros r src.
  exact (proj2 (proj2 (proj2
           (unreadable_input_no_call r fixtures.fresh 0%nat src eq_refl)))).
Defined.

(** ** [Delete] *)

(** X6.  Once the prior state is read, [Delete] makes exactly one call, the
    deletion of the group of the prior identifier; it never writes the
    state, and it adds an error exactly when that call fails. *)
Theorem Delete_one_call {W} (r : GroupResource W) (req : DeleteRequest)
    (resp : Response) (w : W) :
  let prior := Get_data (delete_State req) in
  let groupID := ValueUUID (ID prior) in
  let resp1 := Append resp (Get_diags (delete_State req)) in
  HasError (resp_Diagnostics resp1) = false →
  let '(resp', st) := run (Delete r req resp) w in
  let '(deleted, w1) := DeleteGroup (data_Client (r_data r)) groupID w in
  log st = [mkEvent (CallDeleteGroup groupID) (is_err deleted)]
  ∧ world st = w1
  ∧ resp_State resp' = resp_State resp
  ∧ resp' = match deleted with
            | Ok _ => resp1
            | Err err =>
                AddError resp1 "Client Error"
                         ("Unable to delete group, got error: " ++ err)
            end
  ∧ HasError (resp_Diagnostics resp') = is_err deleted.
Proof.
  intros prior groupID resp1 Hstate.
  unfold run, Delete. fold prior resp1 groupID. rewrite Hstate.
  unfold bind, remote. cbn [world log].
  destruct (DeleteGroup (data_Client (r_data r)) groupID w) as [[[]|err] w1];
    cbv beta iota; unfold ret; repeat split; try done.
  apply HasError_AddError.
Qed.

Lemma Delete_one_call_witness :
  run (Delete (fixtures.resource fixtures.down fixtures.licensed)
              (mkDeleteRequest (fixtures.plan Null)) fixtures.fresh) 0%nat
  = (AddError fixtures.fresh "Client Error"
              "Unable to delete group, got error: unreachable",
     mkSt 1%nat [mkEvent (CallDeleteGroup fixtures.gid) true]).
Proof.
  pose proof (Delete_one_call (fixtures.resource fixtures.down fixtures.licensed)
                (mkDeleteRequest (fixtures.plan Null)) fixtures.fresh 0%nat
                eq_refl) as H.
  destruct (run (Delete _ _ _) _) as [resp' [w' l']].
  cbn in H. destruct H as (-> & -> & _ & -> & _). reflexivity.
Defined.

(** ** [Read], continued *)



(** ** [Create], continued *)

Lemma create_request_default_org {W} (r : GroupResource W) data :
  create_request (default_org r data) = create_request data.
Proof.
  unfold create_request.
  destruct (default_org_fields r data) as (_ & -> & -> & -> & ->). done.
Qed.

Lemma ValueUUID_default_org {W} (r : GroupResource W) data :
  ValueUUID (OrganizationID (default_org r data)) = Create_organization r data.
Proof.
  unfold default_org, Create_organization.
  destruct data as [id name dn av q org ms]. cbn [OrganizationID].
  by destruct org.
Qed.

(** X8.  With a readable plan and the feature enabled, the first call of
    [Create] is the create call, with the name, display name, avatar URL
    and quota of the plan, in the organization of the plan when it is
    known and in the provider's default organization when it is unknown.
    When that call fails, it is the only call: the response gets the error
    and the state is not written. *)
Theorem Create_first_call {W} (r : GroupResource W) (req : CreateRequest)
    (resp : Response) (w : W) :
  let plan := Get_data (create_Plan req) in
  let resp1 := Append resp (Get_diags (create_Plan req)) in
  let createReq :=
    codersdk.CreateGroupRequest.mk
      (types.ValueString (Name plan)) (types.ValueString (DisplayName plan))
      (types.ValueString (AvatarURL plan)) (types.ValueInt32 (QuotaAllowance plan)) in
  HasError (resp_Diagnostics resp1) = false →
  codersdk.Feature.Enabled
    (feature (Features (r_data r)) codersdk.FeatureTemplateRBAC) = true →
  let '(resp', st) := run (Create r req resp) w in
  let '(created, w1) :=
    CreateGroup (data_Client (r_data r)) (Create_organization r plan) createReq w in
  head (log st)
    = Some (mkEvent (CallCreateGroup (Create_organization r plan) createReq)
                    (is_err created))
  ∧ match created with
    | Ok _ => True
    | Err err =>
        log st = [mkEvent (CallCreateGroup (Create_organization r plan) createReq) true]
        ∧ world st = w1
        ∧ resp' = AddError resp1 "Client Error"
                           ("Unable to create group, got error: " ++ err)
    end.
Proof.
  intros plan resp1 createReq Hplan Hon.
  unfold run, Create. fold plan resp1. rewrite Hplan.
  rewrite (CheckGroupEntitlements_enabled _ Hon), Append_nil, Hplan.
  rewrite create_request_default_org, ValueUUID_default_org.
  change (create_request plan) with createReq.
  unfold bind at 1. unfold remote at 1. cbn [world log].
  destruct (CreateGroup _ (Create_organization r plan) createReq w)
    as [[group|err] w1]; cbv beta iota.
  - destruct (types_Set.ElementsAs_strings _) as [diags members].
    destruct (HasError (resp_Diagnostics (Append resp1 diags))); [done|].
    unfold bind, remote. cbn [world log].
    by destruct (PatchGroup _ _ _ w1) as [[v|err] w2].
  - done.
Qed.

Lemma Create_first_call_witness :
  run (Create (fixtures.resource fixtures.down fixtures.licensed)
              (mkCreateRequest (fixtures.plan Null)) fixtures.fresh) 0%nat
  = (AddError fixtures.fresh "Client Error"
              "Unable to create group, got error: unreachable",
     mkSt 1%nat
       [mkEvent (CallCreateGroup fixtures.orgid
                   (codersdk.CreateGroupRequest.mk "devs" "Developers" "" 5))
                true]).
Proof.
  pose proof (Create_first_call (fixtures.resource fixtures.down fixtures.licensed)
                (mkCreateRequest (fixtures.plan Null)) fixtures.fresh 0%nat
                eq_refl eq_refl) as H.
  destruct (run (Create _ _ _) _) as [resp' [w' l']].
  cbn in H. destruct H as (_ & -> & -> & ->). reflexivity.
Defined.

(** X9.  When both calls of [Create] succeed, the state it stores is the plan
    with the identifier and the display name of the group that the create
    call returned and, for an unknown organization, the provider's default
    one; name, avatar URL, quota and members are stored as planned, and the
    group that the patch call returns is not looked at. *)
Theorem Create_stored_state {W} (r : GroupResource W) (req : CreateRequest)
    (resp : Response) (w w1 w2 : W) (group patched : codersdk.Group.t) :
  let plan := Get_data (create_Plan req) in
  HasError (resp_Diagnostics (Append resp (Get_diags (create_Plan req)))) = false →
  codersdk.Feature.Enabled
    (feature (Features (r_data r)) codersdk.FeatureTemplateRBAC) = true →
  CreateGroup (data_Client (r_data r)) (Create_organization r plan)
              (create_request plan) w = (Ok group, w1) →
  types_Set.convertible (Members plan) = true →
  PatchGroup (data_Client (r_data r)) (codersdk.Group.ID group)
             (members_request (types_Set.strings (Members plan))) w1
    = (Ok patched, w2) →
  let '(resp', st) := run (Create r req resp) w in
  world st = w2
  ∧ resp_Diagnostics resp' = resp_Diagnostics (Append resp (Get_diags (create_Plan req)))
  ∧ resp_State resp'
    = Some (mkModel (UUIDValue (codersdk.Group.ID group))
                    (Name plan)
                    (Known (codersdk.Group.DisplayName group))
                    (AvatarURL plan)
                    (QuotaAllowance plan)
                    (if IsUnknown (OrganizationID plan)
                     then UUIDValue (DefaultOrganizationID (r_data r))
                     else OrganizationID plan)
                    (Members plan)).
Proof.
  intros plan Hplan Hon Hcreate Hconv Hpatch.
  rewrite <- create_request_default_org with (r := r) in Hcreate.
  rewrite <- ValueUUID_default_org in Hcreate.
  rewrite (Create_after_create r req resp w w1 group Hplan Hon Hcreate Hconv).
  fold plan. rewrite Hpatch. repeat split.
  cbn [resp_State SetState]. f_equal.
  unfold created_model, default_org. fold plan.
  by destruct (IsUnknown (OrganizationID plan)).
Qed.

Lemma Create_stored_state_witness :
  resp_State
    (run (Create (fixtures.resource (fixtures.service true "user") fixtures.licensed)
                 (mkCreateRequest (fixtures.plan (fixtures.managed [fixtures.u1])))
                 fixtures.fresh) 0%nat).1
  = Some (mkModel (Known fixtures.gid) (Known "devs") (Known "Developers")
                  (Known "") (Known 5) (Known fixtures.orgid)
                  (fixtures.managed [fixtures.u1])).
Proof.
  pose proof (Create_stored_state
                (fixtures.resource (fixtures.service true "user") fixtures.licensed)
                (mkCreateRequest (fixtures.plan (fixtures.managed [fixtures.u1])))
                fixtures.fresh 0%nat 1%nat 2%nat _ _
                eq_refl eq_refl eq_refl eq_refl eq_refl) as H.
  destruct (run (Create _ _ _) _) as [resp' st].
  destruct H as (_ & _ & H). exact H.
Defined.

(** ** [Update], continued *)

(** [Update] once the plan is read and the group is fetched. *)
Lemma Update_after_fetch {W} (r : GroupResource W) (req : UpdateRequest)
    (resp : Response) (w w1 : W) (group : codersdk.Group.t) :
  let plan := Get_data (update_Plan req) in
  let resp1 := Append resp (Get_diags (update_Plan req)) in
  HasError (resp_Diagnostics resp1) = false →
  Members plan ≠ Unknown →
  Group (data_Client (r_data r)) (ValueUUID (ID plan)) w = (Ok group, w1) →
  run (Update r req resp) w
  = Update_patch r (default_org r plan) group
      (Update_changes (Members plan) group).1
      (Update_changes (Members plan) group).2
      resp1
      (mkSt w1 [mkEvent (CallGroup (ValueUUID (ID plan))) false]).
Proof.
  intros plan resp1 Hplan Hknown Hfetch.
  unfold run, Update. fold plan resp1. rewrite Hplan.
  destruct (default_org_fields r plan) as (-> & _).
  unfold bind at 1. unfold remote at 1. cbn [world log].
  rewrite Hfetch. cbv beta iota. rewrite Members_default_org.
  unfold Update_changes.
  destruct (Members plan) as [| |planned]; [done|done|].
  cbn [IsNull negb types_Set.ElementsAs_UUIDs]. rewrite Append_nil, Hplan.
  by destruct (memberDiff _ planned).
Qed.

(** X10.  When the fetch and the patch succeed, [Update] stores the plan itself,
    with the provider's default organization for an unknown one; nothing
    of what the service returned is stored.  When the patch fails, the
    response gets the error and the state is not written. *)
Theorem Update_stored_state {W} (r : GroupResource W) (req : UpdateRequest)
    (resp : Response) (w w1 : W) (group : codersdk.Group.t) :
  let plan := Get_data (update_Plan req) in
  let resp1 := Append resp (Get_diags (update_Plan req)) in
  let '(add, remove) := Update_changes (Members plan) group in
  HasError (resp_Diagnostics resp1) = false →
  Members plan ≠ Unknown →
  Group (data_Client (r_data r)) (ValueUUID (ID plan)) w = (Ok group, w1) →
  let '(resp', st) := run (Update r req resp) w in
  match PatchGroup (data_Client (r_data r)) (codersdk.Group.ID group)
                   (update_request plan add remove) w1 with
  | (Ok _, w2) =>
      world st = w2
      ∧ resp_Diagnostics resp' = resp_Diagnostics resp1
      ∧ resp_State resp'
        = Some (if IsUnknown (OrganizationID plan)
                then with_OrganizationID plan
                       (UUIDValue (DefaultOrganizationID (r_data r)))
                else plan)
  | (Err err, w2) =>
      world st = w2
      ∧ resp' = AddError resp1 "Client Error"
                         ("Unable to update group, got error: " ++ err)
      ∧ resp_State resp' = resp_State resp
  end.
Proof.
  intros plan resp1.
  destruct (Update_changes (Members plan) group) as [add remove] eqn:Hch.
  intros Hplan Hknown Hfetch.
  rewrite (Update_after_fetch r req resp w w1 group Hplan Hknown Hfetch).
  fold plan resp1. rewrite Hch. cbn [fst snd].
  unfold Update_patch, bind, remote. cbn [world log].
  rewrite update_request_default_org.
  rewrite (Set_and_Append_valid resp1 (default_org r plan))
    by (rewrite Members_default_org; exact (Get_valid resp _ Hplan)).
  destruct (PatchGroup _ _ (update_request plan add remove) w1) as [[v|err] w2];
    cbv beta iota; unfold ret; repeat split; done.
Qed.

Lemma Update_stored_state_witness :
  let plan := fixtures.plan (fixtures.managed [fixtures.u2; fixtures.u3]) in
  resp_State
    (run (Update (fixtures.resource (fixtures.service true "user") fixtures.licensed)
                 (mkUpdateRequest plan (fixtures.plan Null)) fixtures.fresh) 0%nat).1
  = Some (with_OrganizationID (Get_data plan) (Known fixtures.orgid)).
Proof.
  intros plan.
  pose proof (Update_stored_state
                (fixtures.resource (fixtures.service true "user") fixtures.licensed)
                (mkUpdateRequest plan (fixtures.plan Null)) fixtures.fresh
                0%nat 1%nat (fixtures.devs "user")) as H.
  cbv zeta in H.
  destruct (Update_changes _ _) as [add remove].
  specialize (H eq_refl ltac:(discriminate) eq_refl).
  destruct (run (Update _ _ _) _) as [resp' st].
  cbn in H. destruct H as (_ & _ & H). exact H.
Defined.

(** The string sets that a patch of [add] and [remove] leaves, from the
    filter form of [memberDiff]. *)
Lemma memberDiff_apply (current desired : list uuid.UUID) :
  (strings_of current
   ∪ list_to_set (uuid.String <$> filter (λ d, d ∉ current) desired))
  ∖ list_to_set (uuid.String <$> filter (λ c, c ∉ desired) current)
  = strings_of desired.
Proof.
  apply set_eq. intros s.
  rewrite elem_of_difference, elem_of_union, !elem_of_list_to_set.
  unfold strings_of. rewrite !elem_of_list_to_set, !list_elem_of_fmap. split.
  - intros [[(c & -> & Hc)|(d & -> & [_ Hd]%list_elem_of_filter)] Hnot].
    + destruct (decide (c ∈ desired)) as [Hin|Hout]; [by exists c|].
      destruct Hnot. exists c. split; [done|]. by apply list_elem_of_filter.
    + by exists d.
  - intros (d & -> & Hd). split.
    + destruct (decide (d ∈ current)) as [Hin|Hout]; [left; by exists d|].
      right. exists d. split; [done|]. by apply list_elem_of_filter.
    + intros (c & Heq%uuid_String_inj & [Hc _]%list_elem_of_filter). by subst.
Qed.

(** X11.  Convergence of the membership: when the planned members are known
    identifiers, the patch that [Update] sends is such that adding its
    [AddUsers] to the members of the group just fetched and removing its
    [RemoveUsers] gives exactly the planned members.  If the fetched
    members already are the planned ones, in any order, both lists are
    empty. *)
Theorem Update_patch_converges {W} (r : GroupResource W) (req : UpdateRequest)
    (resp : Response) (w w1 : W) (group : codersdk.Group.t)
    (desired : list uuid.UUID) :
  let plan := Get_data (update_Plan req) in
  let current := codersdk.ReducedUser.ID <$> codersdk.Group.Members group in
  HasError (resp_Diagnostics (Append resp (Get_diags (update_Plan req)))) = false →
  Members plan = Known (UUIDValue <$> desired) →
  Group (data_Client (r_data r)) (ValueUUID (ID plan)) w = (Ok group, w1) →
  ∃ patch,
    calls (run (Update r req resp) w).2
    = [CallGroup (ValueUUID (ID plan));
       CallPatchGroup (codersdk.Group.ID group) patch]
    ∧ (strings_of current
       ∪ list_to_set (codersdk.PatchGroupRequest.AddUsers patch))
      ∖ list_to_set (codersdk.PatchGroupRequest.RemoveUsers patch)
      = strings_of desired
    ∧ ((∀ u, u ∈ current ↔ u ∈ desired) →
       codersdk.PatchGroupRequest.AddUsers patch = []
       ∧ codersdk.PatchGroupRequest.RemoveUsers patch = []).
Proof.
  intros plan current Hplan Hmembers Hfetch.
  assert (Hknown : Members plan ≠ Unknown) by (by rewrite Hmembers).
  rewrite (Update_after_fetch r req resp w w1 group Hplan Hknown Hfetch).
  fold plan. rewrite Update_patch_calls. rewrite Hmembers.
  unfold Update_changes. fold current. rewrite memberDiff_filter.
  cbn [fst snd]. eexists. split; [reflexivity|].
  cbn [update_request codersdk.PatchGroupRequest.AddUsers
       codersdk.PatchGroupRequest.RemoveUsers]. split.
  - apply memberDiff_apply.
  - intros Hsame.
    rewrite (filter_none (λ d, d ∉ current) desired),
            (filter_none (λ c, c ∉ desired) current); [done| |].
    + intros u Hu Hn. apply Hn. by apply Hsame.
    + intros u Hu Hn. apply Hn. by apply Hsame.
Qed.

Lemma Update_patch_converges_witness :
  let r := fixtures.resource (fixtures.service true "user") fixtures.licensed in
  let req := mkUpdateRequest (fixtures.plan (fixtures.managed [fixtures.u2; fixtures.u3]))
                             (fixtures.plan Null) in
  ∃ patch,
    calls (run (Update r req fixtures.fresh) 0%nat).2
    = [CallGroup fixtures.gid; CallPatchGroup fixtures.gid patch]
    ∧ (strings_of [fixtures.u1; fixtures.u2]
       ∪ list_to_set (codersdk.PatchGroupRequest.AddUsers patch))
      ∖ list_to_set (codersdk.PatchGroupRequest.RemoveUsers patch)
      = strings_of [fixtures.u2; fixtures.u3].
Proof.
  intros r req.
  destruct (Update_patch_converges r req fixtures.fresh 0%nat 1%nat
              (fixtures.devs "user") [fixtures.u2; fixtures.u3]
              eq_refl eq_refl eq_refl) as (patch & Hcalls & Hset & _).
  exists patch. split; [exact Hcalls | exact Hset].
Defined.

(** ** [ImportState], continued *)

Lemma strings_Split_nonempty (s : string) (sep : ascii) :
  strings_Split s sep ≠ [].
Proof.
  destruct s as [|a s]; simpl; [done|].
  destruct (Ascii.eqb a sep); [done|]. by destruct (strings_Split s sep).
Qed.

Lemma strings_Split_length (s : string) (sep : ascii) :
  length (strings_Split s sep) = S (count_char sep s).
Proof.
  induction s as [|a s IH]; simpl; [done|].
  destruct (Ascii.eqb a sep); simpl; [by rewrite IH|].
  pose proof (strings_Split_nonempty s sep).
  destruct (strings_Split s sep) as [|piece pieces]; [done|]. by simpl in *.
Qed.

Lemma strings_Join_Split (s : string) (sep : ascii) :
  strings_Join (strings_Split s sep) sep = s.
Proof.
  induction s as [|a s IH]; simpl; [done|].
  pose proof (strings_Split_nonempty s sep) as Hne.
  destruct (Ascii.eqb a sep) eqn:Heq.
  - apply Ascii.eqb_eq in Heq as ->.
    destruct (strings_Split s sep) as [|piece pieces]; [done|].
    simpl in *. by rewrite IH.
  - destruct (strings_Split s sep) as [|piece pieces]; [done|].
    destruct pieces as [|piece' pieces]; simpl in *; by rewrite <- IH.
Qed.

(** X12.  What [ImportState] does with an identifier depends on the number of
    its slashes only.  Without a slash the whole identifier is the one
    token, and the resolution makes no remote call.  With one slash the
    identifier is [orgName/groupName], either name possibly empty, and the
    resolution starts with the lookup of the organization [orgName].  With
    two or more slashes [ImportState] fails with the format error, without
    a call and without writing the state. *)
Theorem ImportState_by_slashes {W} (parse : string → result uuid.UUID)
    (r : GroupResource W) (req : ImportStateRequest) (resp : Response) (w : W) :
  let id := import_ID req in
  match count_char "/" id with
  | 0%nat =>
      strings_Split id "/" = [id]
      ∧ log (run (ImportState_resolve parse r req resp) w).2 = []
  | 1%nat =>
      ∃ orgName groupName,
        id = orgName ++ "/" ++ groupName
        ∧ strings_Split id "/" = [orgName; groupName]
        ∧ head (calls (run (ImportState_resolve parse r req resp) w).2)
          = Some (CallOrganizationByName orgName)
  | _ =>
      run (ImportState parse r req resp) w
      = (AddError resp "Client Error"
           "Invalid import ID format, expected a single UUID or `<organization-name>/<group-name>`",
         mkSt w [])
  end.
Proof.
  intros id.
  pose proof (strings_Split_length id "/") as Hlen.
  pose proof (strings_Join_Split id "/") as Hjoin.
  unfold run, ImportState, ImportState_resolve. fold id.
  destruct (strings_Split id "/") as [|tok1 [|tok2 [|tok3 rest]]];
    simpl in Hlen; [done|injection Hlen as <-..].
  - simpl in Hjoin. subst tok1. split; [done|].
    by destruct (parse id).
  - exists tok1, tok2. split; [by rewrite <- Hjoin|]. split; [done|].
    unfold bind at 1. unfold remote at 1. cbn [world log].
    destruct (OrganizationByName _ tok1 w) as [[org|err] w1]; cbv beta iota.
    + unfold bind, remote. cbn [world log].
      by destruct (GroupByOrgAndName _ _ tok2 w1) as [[group|err] w2].
    + done.
  - done.
Qed.

(** X13.  After the resolution, [ImportState] makes one more call, the fetch of
    the group.  When the fetch fails the response gets the error and the
    state is not written.  When the fetched group does not come from OIDC,
    only the identifier is written to the state: in a response whose state
    was empty every other attribute, the members included, is null. *)
Theorem ImportState_stores_id_only {W} (parse : string → result uuid.UUID)
    (r : GroupResource W) (req : ImportStateRequest) (resp : Response)
    (w : W) (st1 : St W) (groupID : uuid.UUID) :
  run (ImportState_resolve parse r req resp) w = (inr groupID, st1) →
  let '(resp', st) := run (ImportState parse r req resp) w in
  let '(fetched, w2) := Group (data_Client (r_data r)) groupID (world st1) in
  log st = (log st1 ++ [mkEvent (CallGroup groupID) (is_err fetched)])%list
  ∧ world st = w2
  ∧ match fetched with
    | Err err =>
        resp' = AddError resp "Client Error"
                         ("Unable to get imported group, got error: " ++ err)
    | Ok group =>
        codersdk.Group.Source group ≠ "oidc" →
        resp_Diagnostics resp' = resp_Diagnostics resp
        ∧ (resp_State resp = None →
           resp_State resp'
           = Some (mkModel (UUIDValue groupID) Null Null Null Null Null Null))
        ∧ (∀ prior, resp_State resp = Some prior →
             resp_State resp' = Some (with_ID prior (UUIDValue groupID)))
    end.
Proof.
  intros Hres. unfold run in *. unfold ImportState. unfold bind at 1.
  rewrite Hres. unfold bind, remote.
  destruct (Group (data_Client (r_data r)) groupID (world st1))
    as [[group|err] w2]; cbv beta iota; [|done].
  destruct (String.eqb (codersdk.Group.Source group) "oidc") eqn:Hsrc.
  - apply String.eqb_eq in Hsrc. unfold ret. repeat split; try done.
  - unfold ret. repeat split; try done.
    + cbn [resp_State SetState State_SetAttribute_id]. by intros ->.
    + cbn [resp_State SetState State_SetAttribute_id]. by intros prior ->.
Qed.

Lemma ImportState_stores_id_only_witness :
  run (ImportState fixtures.parse_gid
         (fixtures.resource (fixtures.service true "user") fixtures.licensed)
         (mkImportStateRequest "00000000-0000-0000-0000-00000000000a")
         fixtures.fresh) 0%nat
  = (mkResponse [] (Some (mkModel (UUIDValue fixtures.gid)
                                  Null Null Null Null Null Null)),
     mkSt 1%nat [mkEvent (CallGroup fixtures.gid) false]).
Proof.
  pose proof (ImportState_stores_id_only fixtures.parse_gid
                (fixtures.resource (fixtures.service true "user") fixtures.licensed)
                (mkImportStateRequest "00000000-0000-0000-0000-00000000000a")
                fixtures.fresh 0%nat (mkSt 0%nat []) fixtures.gid eq_refl) as H.
  destruct (run (ImportState _ _ _ _) _) as [[diags state] [w' l']].
  cbn in H. destruct H as (-> & -> & H).
  destruct (H ltac:(discriminate)) as (Hd & Hs & _).
  cbn in Hd, Hs. rewrite Hd, (Hs eq_refl). reflexivity.
Defined.

(** X14.  After an import into an empty state, [Read] fills in the name, display
    name, avatar URL, quota and organization of the group but leaves the
    members null: an imported group starts with unmanaged membership. *)
Theorem Read_after_import {W} (r : GroupResource W) (resp : Response)
    (w w1 : W) (groupID : uuid.UUID) (group : codersdk.Group.t) :
  let imported := default null_model (imported_state (mkResponse [] None) groupID) in
  HasError (resp_Diagnostics resp) = false →
  Group (data_Client (r_data r)) groupID w = (Ok group, w1) →
  resp_State (run (Read r (mkReadRequest (mkSource [] imported)) resp) w).1
  = Some (mkModel (UUIDValue groupID)
                  (Known (codersdk.Group.Name group))
                  (Known (codersdk.Group.DisplayName group))
                  (Known (codersdk.Group.AvatarURL group))
                  (Known (int32 (codersdk.Group.QuotaAllowance group)))
                  (Known (codersdk.Group.OrganizationID group))
                  Null).
Proof.
  intros imported Hresp Hfetch.
  assert (Himp : imported
                 = mkModel (UUIDValue groupID) Null Null Null Null Null Null)
    by reflexivity.
  clearbody imported. subst imported.
  rewrite (Read_after_fetch r _ resp w w1 group).
  - by rewrite Set_and_Append_valid.
  - cbn [read_State]. change (Get_diags _) with (@nil Diagnostic).
    by rewrite Append_nil.
  - exact Hfetch.
Qed.

Lemma Read_after_import_witness :
  resp_State
    (run (Read (fixtures.resource (fixtures.service true "user") fixtures.licensed)
               (mkReadRequest
                  (mkSource [] (mkModel (UUIDValue fixtures.gid)
                                        Null Null Null Null Null Null)))
               fixtures.fresh) 0%nat).1
  = Some (mkModel (UUIDValue fixtures.gid) (Known "devs") (Known "Developers")
                  (Known "") (Known (int32 5)) (Known fixtures.orgid) Null).
Proof.
  exact (Read_after_import
           (fixtures.resource (fixtures.service true "user") fixtures.licensed)
           fixtures.fresh 0%nat 1%nat fixtures.gid (fixtures.devs "user")
           eq_refl eq_refl).
Defined.

(** ** [PrintOrNull] *)

Lemma string_app_assoc (s1 s2 s3 : string) : (s1 ++ s2) ++ s3 = s1 ++ (s2 ++ s3).
Proof.
  induction s1 as [|a s1 IH]; [reflexivity|]. exact (f_equal (String a) IH).
Qed.

Lemma string_app_nil_r (s : string) : s ++ "" = s.
Proof.
  induction s as [|a s IH]; [reflexivity|]. exact (f_equal (String a) IH).
Qed.

Lemma PrintOrNull_roles_fold (quote : string → string) (roles : list string)
    (i : nat) (result : string) :
  (foldl (λ '((i, result) : nat * string) role,
            let result := if decide (0 < i)%nat then result ++ ", " else result in
            (S i, result ++ quote role))
         (i, result) roles).2
  = match roles with
    | [] => result
    | _ => result ++ (if decide (0 < i)%nat then ", " else "")
                  ++ join ", " (quote <$> roles)
    end.
Proof.
  revert i result. induction roles as [|role roles IH]; intros i result; [done|].
  cbn [foldl]. rewrite IH. destruct roles as [|role' roles].
  - cbn [fmap list_fmap join].
    destruct (decide (0 < i)%nat); by rewrite ?string_app_assoc, ?string_app_nil_r.
  - destruct (decide (0 < S i)%nat) as [_|]; [|lia].
    cbn [fmap list_fmap join].
    destruct (decide (0 < i)%nat);
      by rewrite ?string_app_assoc, ?string_app_nil_r.
Qed.

(** X15.  For a list of strings [PrintOrNull] prints the quoted elements,
    separated by a comma and a space, between square brackets; the empty
    list prints as [[]]. *)
Theorem PrintOrNull_strings (quote : string → string) (roles : list string) :
  PrintOrNull quote (ptr_strings (Some roles))
  = Ok ("[" ++ join ", " (quote <$> roles) ++ "]").
Proof.
  unfold PrintOrNull, PrintOrNull_roles. rewrite PrintOrNull_roles_fold.
  by destruct roles.
Qed.

(** ** [computeDirectoryHash] *)

Section computeDirectoryHash_facts.
Variable ReadFile : string → result (list byte).
Variable sha256_Sum : list byte → list byte.

(** The paths that the walk collects: the visits that are not directories. *)
Lemma walk_no_error (visits : list Visit) (files : list string) :
  Forall (λ v, visit_err v = None) visits →
  computeDirectoryHash_walk visits files
  = Ok (files ++ (visit_path <$> filter (λ v, visit_IsDir v = false) visits))%list.
Proof.
  revert files. induction visits as [|v visits IH]; intros files Hall; simpl.
  - by rewrite app_nil_r.
  - apply Forall_cons in Hall as [-> Hall]. rewrite IH by done.
    destruct (visit_IsDir v) eqn:Hdir; simpl.
    + by rewrite filter_cons_False by congruence.
    + rewrite filter_cons_True by done. by rewrite fmap_cons, <- app_assoc.
Qed.

Lemma walk_error (before after : list Visit) (v : Visit) (err : error)
    (files : list string) :
  Forall (λ v, visit_err v = None) before →
  visit_err v = Some err →
  computeDirectoryHash_walk (before ++ v :: after) files = Err err.
Proof.
  revert files. induction before as [|b before IH]; intros files Hall Herr; simpl.
  - by rewrite Herr.
  - apply Forall_cons in Hall as [-> Hall]. by apply IH.
Qed.

Lemma read_all (files : list string) (contents : list (list byte))
    (written : list byte) :
  Forall2 (λ file data, ReadFile file = Ok data) files contents →
  computeDirectoryHash_read ReadFile files written
  = Ok (written ++ concat contents)%list.
Proof.
  intros Hall. revert written.
  induction Hall as [|file data files contents Hread _ IH]; intros written; simpl.
  - by rewrite app_nil_r.
  - rewrite Hread, IH. by rewrite <- app_assoc.
Qed.

Lemma read_error (before after : list string) (contents : list (list byte))
    (file : string) (err : error) (written : list byte) :
  Forall2 (λ file data, ReadFile file = Ok data) before contents →
  ReadFile file = Err err →
  computeDirectoryHash_read ReadFile (before ++ file :: after) written = Err err.
Proof.
  intros Hall Herr. revert written.
  induction Hall as [|f data files contents' Hread _ IH]; intros written; simpl.
  - by rewrite Herr.
  - by rewrite Hread, IH.
Qed.

(** X16.  When no visit of the walk has an error and every file is read, the
    result is the hexadecimal form of the digest of the contents of the
    files, concatenated in walk order.  Directories, the names of the
    files and the boundaries between the files have no part in it, and the
    string has two characters for each byte of the digest. *)
Theorem computeDirectoryHash_contents (visits : list Visit)
    (contents : list (list byte)) :
  let files := visit_path <$> filter (λ v, visit_IsDir v = false) visits in
  Forall (λ v, visit_err v = None) visits →
  Forall2 (λ file data, ReadFile file = Ok data) files contents →
  computeDirectoryHash ReadFile sha256_Sum visits
    = Ok (hex_EncodeToString (sha256_Sum (concat contents)))
  ∧ String.length (hex_EncodeToString (sha256_Sum (concat contents)))
    = (2 * length (sha256_Sum (concat contents)))%nat.
Proof.
  intros files Hwalk Hread. split.
  - unfold computeDirectoryHash. rewrite walk_no_error by done.
    cbn [app]. fold files. by rewrite (read_all files contents []).
  - generalize (sha256_Sum (concat contents)). intros digest.
    induction digest as [|b digest IH]; [done|].
    cbn [hex_EncodeToString foldr uuid.hex2 String.length length].
    unfold hex_EncodeToString in IH. rewrite IH. lia.
Qed.

(** X17.  An error of the walk or of a read is returned as it is, with no hash.
    The walk is finished before any file is read, so an error of a visit
    is returned even when a file that was visited before it cannot be
    read; apart from that the first error in walk order is the one
    returned. *)
Theorem computeDirectoryHash_errors (err : error) :
  (∀ before v after,
     Forall (λ v, visit_err v = None) before →
     visit_err v = Some err →
     computeDirectoryHash ReadFile sha256_Sum (before ++ v :: after) = Err err)
  ∧ (∀ visits before file after contents,
       Forall (λ v, visit_err v = None) visits →
       visit_path <$> filter (λ v, visit_IsDir v = false) visits
         = (before ++ file :: after)%list →
       Forall2 (λ file data, ReadFile file = Ok data) before contents →
       ReadFile file = Err err →
       computeDirectoryHash ReadFile sha256_Sum visits = Err err).
Proof.
  split.
  - intros before v after Hall Herr. unfold computeDirectoryHash.
    by rewrite (walk_error before after v err [] Hall Herr).
  - intros visits before file after contents Hwalk Hfiles Hread Herr.
    unfold computeDirectoryHash. rewrite walk_no_error by done.
    cbn [app]. rewrite Hfiles.
    by rewrite (read_error before after contents file err [] Hread Herr).
Qed.

End computeDirectoryHash_facts.

Lemma computeDirectoryHash_contents_witness :
  computeDirectoryHash fixtures_util.disk fixtures_util.digest fixtures_util.tree
  = Ok "010203".
Proof.
  exact (proj1 (computeDirectoryHash_contents fixtures_util.disk
                  fixtures_util.digest fixtures_util.tree [[x01; x02]; [x03]]
                  ltac:(repeat constructor) ltac:(repeat constructor))).
Defined.

Lemma computeDirectoryHash_errors_witness :
  computeDirectoryHash fixtures_util.disk fixtures_util.digest
    (fixtures_util.tree ++ [mkVisit "d/c" false None])%list
  = Err "no such file"
  ∧ computeDirectoryHash fixtures_util.disk fixtures_util.digest
      ([mkVisit "d/c" false None] ++ mkVisit "e" true (Some "permission denied")
                                  :: fixtures_util.tree)%list
    = Err "permission denied".
Proof.
  split.
  - exact (proj2 (computeDirectoryHash_errors fixtures_util.disk
                    fixtures_util.digest "no such file")
             (fixtures_util.tree ++ [mkVisit "d/c" false None])%list
             ["d/a"; "d/b"] "d/c" [] [[x01; x02]; [x03]]
             ltac:(repeat constructor) eq_refl
             ltac:(repeat constructor) eq_refl).
  - exact (proj1 (computeDirectoryHash_errors fixtures_util.disk
                    fixtures_util.digest "permission denied")
             [mkVisit "d/c" false None] (mkVisit "e" true (Some "permission denied"))
             fixtures_util.tree ltac:(repeat constructor) eq_refl).
Defined.
